(** * The wash shell commands of axiom: ls, mkdir, mv and import

    A shallow embedding of the four command scripts and of [formatStat],
    with the properties their description states about them.

    Strings are sequences of 8-bit code units.  JavaScript integers are [Z];
    the 32-bit bit operations are written out with [to_int32].  A promise
    chain is a state-passing computation over the file system and the trace
    of calls made on the execute context. *)

From Stdlib Require Import ZArith Lia Ascii.
From stdpp Require Import base strings list gmap sorting pretty.

Set Warnings "-register-all".
Set Default Proof Using "Type*".

(** ** JavaScript strings, numbers and values *)

Module Js.

Definition nl : string := String "010"%char EmptyString.
Definition cr : string := String "013"%char EmptyString.
Definition crlf : string := cr +:+ nl.
Definition dquote : ascii := "034"%char.
Definition backslash : ascii := "092"%char.

(** [Array.prototype.join]. *)
Fixpoint join (sep : string) (xs : list string) : string :=
  match xs with
  | [] => EmptyString
  | [x] => x
  | x :: rest => x +:+ sep +:+ join sep rest
  end.

(** [String.prototype.repeat] for the single space the listing pads with. *)
Fixpoint spaces (n : nat) : string :=
  match n with
  | O => EmptyString
  | S k => String " " (spaces k)
  end.

(** A JavaScript number that is an integer or NaN. *)
Definition Number := option Z.

Definition num_to_string (n : Number) : string :=
  match n with
  | Some z => pretty z
  | None => "NaN"
  end.

(** ToInt32: the operand conversion of [^] and [&]. *)
Definition to_int32 (z : Z) : Z :=
  ((z + 2 ^ 31) mod 2 ^ 32 - 2 ^ 31)%Z.

Definition bit_xor (a b : Z) : Z := Z.lxor (to_int32 a) (to_int32 b).
Definition bit_and (a b : Z) : Z := Z.land (to_int32 a) (to_int32 b).

(** Truthiness of an integer. *)
Definition truthy (z : Z) : bool := negb (z =? 0)%Z.

Inductive JsVal : Type :=
| VUndef
| VNull
| VBool (b : bool)
| VNum (n : Z)
| VStr (s : string)
| VArr (xs : list JsVal)
| VObj (kvs : list (string * JsVal)).

Definition hex_digit (n : N) : ascii :=
  match n with
  | 0%N => "0" | 1%N => "1" | 2%N => "2" | 3%N => "3" | 4%N => "4"
  | 5%N => "5" | 6%N => "6" | 7%N => "7" | 8%N => "8" | 9%N => "9"
  | 10%N => "a" | 11%N => "b" | 12%N => "c" | 13%N => "d" | 14%N => "e"
  | _ => "f"
  end%char.

(** The escape of one code unit inside a JSON string literal. *)
Definition quote_char (c : ascii) : string :=
  let n := N_of_ascii c in
  if Ascii.eqb c dquote then String backslash (String dquote EmptyString)
  else if Ascii.eqb c backslash then String backslash (String backslash EmptyString)
  else if (n =? 8)%N then String backslash "b"
  else if (n =? 12)%N then String backslash "f"
  else if (n =? 10)%N then String backslash "n"
  else if (n =? 13)%N then String backslash "r"
  else if (n =? 9)%N then String backslash "t"
  else if (n <? 32)%N then
    String backslash
      ("u00" +:+ String (hex_digit (n / 16)) (String (hex_digit (n mod 16)) EmptyString))
  else String c EmptyString.

Fixpoint quote_body (s : string) : string :=
  match s with
  | EmptyString => EmptyString
  | String c rest => quote_char c +:+ quote_body rest
  end.

Definition quote (s : string) : string :=
  String dquote (quote_body s +:+ String dquote EmptyString).

(** [JSON.stringify]; [None] is the result [undefined]. *)
Fixpoint stringify (v : JsVal) : option string :=
  match v with
  | VUndef => None
  | VNull => Some "null"
  | VBool b => Some (if b then "true" else "false")
  | VNum n => Some (pretty n)
  | VStr s => Some (quote s)
  | VArr xs =>
      Some ("[" +:+ join "," (map (fun x => default "null" (stringify x)) xs) +:+ "]")
  | VObj kvs =>
      let member (kv : string * JsVal) : list string :=
        match stringify (snd kv) with
        | Some s => [quote (fst kv) +:+ ":" +:+ s]
        | None => []
        end in
      Some ("{" +:+ join "," (concat (map member kvs)) +:+ "}")
  end.

(** String concatenation with the result of [JSON.stringify]. *)
Definition stringify_text (v : JsVal) : string :=
  default "undefined" (stringify v).

End Js.

(** ** The host: dates, paths and file modes

    [Date], [axiom/fs/path] and [wash/string_utils] are supplied to the
    scripts.  What depends on the machine (time zone, locale) and what
    [axiom/fs/path] defines is a class method; the arithmetic of the
    calendar is written out. *)

Class DateHost := {
  (** milliseconds to add to a time value to obtain local time *)
  localOffset : Z -> Z;
  (** [toLocaleTimeString] of a valid time value *)
  localeTime : Z -> string
}.

Class ModeHost := {
  (** [Path.Mode.X] *)
  Mode_X : Z;
  (** [Path.Mode.D] *)
  Mode_D : Z;
  (** [Path.modeIntToString] *)
  modeIntToString : Z -> string
}.

Class PathHost (Path : Type) := {
  (** [Path.abs(pwd, pathSpec)] *)
  Path_abs : string -> string -> Path;
  path_spec : Path -> string;
  path_originalSpec : Path -> string;
  getBaseName : Path -> string;
  (** [null] at the root *)
  getParentPath : Path -> option Path
}.

Module Date.
Import Js.

Definition msPerDay : Z := 86400000.
Definition maxTime : Z := 8640000000000000.

(** A [Date] object: its time value, [None] for an invalid date. *)
Definition t := option Z.

(** [new Date(value)] with TimeClip. *)
Definition make (value : Number) : t :=
  match value with
  | Some ms => if (Z.abs ms <=? maxTime)%Z then Some ms else None
  | None => None
  end.

(** Year, month (1..12) and day of month of a day number counted from
    1970-01-01, in the proleptic Gregorian calendar. *)
Definition civil (days : Z) : Z * Z * Z :=
  let z := (days + 719468)%Z in
  let era := (z / 146097)%Z in
  let doe := (z - era * 146097)%Z in
  let yoe := ((doe - doe / 1460 + doe / 36524 - doe / 146096) / 365)%Z in
  let doy := (doe - (365 * yoe + yoe / 4 - yoe / 100))%Z in
  let mp := ((5 * doy + 2) / 153)%Z in
  let d := (doy - (153 * mp + 2) / 5 + 1)%Z in
  let m := (if (mp <? 10)%Z then mp + 3 else mp - 9)%Z in
  let y := (yoe + era * 400 + (if (m <=? 2)%Z then 1 else 0))%Z in
  (y, m, d).

Section WithHost.
Context `{DateHost}.

Definition localDay (ms : Z) : Z := ((ms + localOffset ms) / msPerDay)%Z.

Definition getFullYear (d : t) : Number :=
  ms ← d; Some (fst (fst (civil (localDay ms)))).

(** January is month 0. *)
Definition getMonth (d : t) : Number :=
  ms ← d; Some (snd (fst (civil (localDay ms))) - 1)%Z.

(** Day of the month, 1..31. *)
Definition getDate (d : t) : Number :=
  ms ← d; Some (snd (civil (localDay ms))).

(** Day of the week, 0 (Sunday) .. 6 (Saturday); 1970-01-01 was a Thursday. *)
Definition getDay (d : t) : Number :=
  ms ← d; Some ((localDay ms + 4) mod 7)%Z.

Definition toLocaleTimeString (d : t) : string :=
  match d with
  | Some ms => localeTime ms
  | None => "Invalid Date"
  end.

End WithHost.
End Date.

(** Modelled from the spec: [zpad] of [wash/string_utils] is not among the
    sources; by its name and by the YYYY-MM-DD form the description gives
    for the date, it pads the decimal text of a number on the left with
    zeros up to the given width. *)
Fixpoint zeros (n : nat) : string :=
  match n with
  | O => EmptyString
  | S k => String "0" (zeros k)
  end.

Definition zpad (number : Js.Number) (width : nat) : string :=
  let s := Js.num_to_string number in
  zeros (width - String.length s) +:+ s.

(** ** StatResult and formatStat *)

(** The numeric properties [mode] and [mtime] of a StatResult are typed;
    the other own properties ([size], [signature], ...) are kept by name. *)
Record StatResult := {
  mode : Z;
  mtime : option Z;
  props : gmap string Js.JsVal
}.

Section FormatStat.
Import Js.
Context `{DateHost} `{ModeHost}.

(** [Object.keys(stat)] as a set (it is sorted before use). *)
Definition stat_keys (stat : StatResult) : gset string :=
  {["mode"]}
  ∪ match mtime stat with Some _ => {["mtime"]} | None => ∅ end
  ∪ dom (props stat).

(** [array.sort()] on strings. *)
Definition sort_strings (xs : list string) : list string :=
  merge_sort String.le xs.

(** [stat[key]] *)
Definition stat_get (stat : StatResult) (key : string) : JsVal :=
  if decide (key = "mode") then VNum (mode stat)
  else if decide (key = "mtime") then
    match mtime stat with Some ms => VNum ms | None => VUndef end
  else default VUndef (props stat !! key).

(** The value of [keys] when the loop of [formatStat] starts. *)
Definition formatStat_keys (stat : StatResult) : list string :=
  let keys := sort_strings (elements (stat_keys stat)) in
  if (mode stat =? Mode_X)%Z then ["signature"]
  else if truthy (bit_xor (mode stat) Mode_X) then
    filter (fun n => n ≠ "signature") keys
  else keys.

(** The text built for the key [mtime]. *)
Definition mtime_text (stat : StatResult) : string :=
  let d := Date.make (mtime stat) in
  num_to_string (Date.getFullYear d) +:+ "-" +:+
  zpad (z ← Date.getMonth d; Some (z + 1)%Z) 2 +:+ "-" +:+
  zpad (Date.getDay d) 2 +:+ " " +:+
  Date.toLocaleTimeString d.

(** The value pushed for one key. *)
Definition formatStat_value (stat : StatResult) (key : string) : JsVal :=
  if decide (key = "mtime") then VStr (mtime_text stat)
  else if decide (key = "mode") then VStr (modeIntToString (mode stat))
  else stat_get stat key.

(** One element of [ary]. *)
Definition formatStat_field (stat : StatResult) (key : string) : string :=
  key +:+ ": " +:+ stringify_text (formatStat_value stat key).

(** An element of [ary] made for a key of the stat other than signature. *)
Definition other_field (stat : StatResult) (field : string) : Prop :=
  ∃ key : string,
    key ∈ stat_keys stat ∧ key ≠ "signature" ∧ field = formatStat_field stat key.

(** The array [ary] after the loop. *)
Definition formatStat_ary (stat : StatResult) : list string :=
  map (formatStat_field stat) (formatStat_keys stat).

Definition formatStat (stat : StatResult) : string :=
  join ", " (formatStat_ary stat).

End FormatStat.

(** ** Errors, promises and the execute context *)

(** The constructors of [axiom/core/error] the scripts name or test for. *)
Inductive ErrKind :=
| TypeMismatch | NotFound | Duplicate | Missing | Runtime | Unknown | InvalidPath.

Global Instance ErrKind_eq_dec : EqDecision ErrKind.
Proof. solve_decision. Defined.

(** A rejection value. *)
Inductive Failure : Type :=
| AxiomError (kind : ErrKind) (detail : string)
| AxiomErrorOf (kind : ErrKind) (causes : list Failure)
| Foreign (text : string).

(** [AxiomError.<Kind>.test(value)] *)
Definition test (k : ErrKind) (value : Failure) : bool :=
  match value with
  | AxiomError k' _ | AxiomErrorOf k' _ => bool_decide (k' = k)
  | Foreign _ => false
  end.

Class ErrorHost := {
  (** [e.toString()] *)
  failure_toString : Failure -> string
}.

(** The one resolution of a file-system operation. *)
Inductive Outcome (A : Type) : Type :=
| Ok (a : A)
| Fail (e : Failure).
Arguments Ok {A} a.
Arguments Fail {A} e.

(** The state of a promise once the chain has run. *)
Inductive Settled (A : Type) : Type :=
| Fulfilled (a : A)
| Rejected (e : Failure)
| Pending.
Arguments Fulfilled {A} a.
Arguments Rejected {A} e.
Arguments Pending {A}.

(** The file-system manager handed to a command, over its state [FS]. *)
Class FileSystemManager (Path FS : Type) := {
  fsm_list : Path -> FS -> Outcome (gmap string StatResult) * FS;
  fsm_stat : Path -> FS -> Outcome StatResult * FS;
  fsm_mkdir : Path -> FS -> Outcome unit * FS;
  fsm_move : Path -> Path -> FS -> Outcome unit * FS;
  fsm_writeFile : Path -> string -> FS -> Outcome unit * FS
}.

(** A call on the file-system manager. *)
Inductive FsCall (Path : Type) : Type :=
| CList (p : Path)
| CStat (p : Path)
| CMkdir (p : Path)
| CMove (src dst : Path)
| CWriteFile (p : Path) (content : string).
Arguments CList {Path} p.
Arguments CStat {Path} p.
Arguments CMkdir {Path} p.
Arguments CMove {Path} src dst.
Arguments CWriteFile {Path} p content.

(** The elements [import] handles: the text input that detects the
    cancellation, the file chooser, and the element that had the focus. *)
Inductive Element := DummyFocusInput | FileInput | OriginalFocus.

Global Instance Element_eq_dec : EqDecision Element.
Proof. solve_decision. Defined.

(** A call on the document. *)
Inductive DomCall :=
| AppendChild (el : Element)
| RemoveChild (el : Element)
| Focus (el : Element)
| Click (el : Element).

(** What a command does that its caller can observe, in order. *)
Inductive Event (Path : Type) : Type :=
| Ready
| Write (text : string)
| CloseOk
| CloseError (e : Failure)
| Fs (c : FsCall Path)
| Dom (d : DomCall).
Arguments Ready {Path}.
Arguments Write {Path} text.
Arguments CloseOk {Path}.
Arguments CloseError {Path} e.
Arguments Fs {Path} c.
Arguments Dom {Path} d.

(** What [cx.closeError] hands back.  The scripts call it as a statement,
    except [ls], which returns its result from a catch handler: the promise
    of that handler is fulfilled unless the result is a rejected promise. *)
Inductive CloseResult := ReturnsUndefined | ReturnsRejected.

(** The execute context [cx]: parsed arguments and working directory. *)
Record ExecuteContext := {
  (** [cx.getArg('_')], [None] when no positional argument was given *)
  arg_list : option (list string);
  arg_help : bool;
  arg_file : bool;
  getPwd : string;
  closeErrorResult : CloseResult
}.

(** [cx.getArg('_', dflt)] *)
Definition getArg_list (cx : ExecuteContext) (dflt : list string) : list string :=
  default dflt (arg_list cx).

(** The file system, the trace so far and the variables a closure shares. *)
Record World (Path FS L : Type) := {
  fs : FS;
  trace : list (Event Path);
  vars : L
}.
Arguments fs {Path FS L} w.
Arguments trace {Path FS L} w.
Arguments vars {Path FS L} w.

Section Promise.
Context {Path FS L : Type}.

(** A promise chain run to its end. *)
Definition Prom (A : Type) : Type :=
  World Path FS L -> Settled A * World Path FS L.

Definition resolve {A} (a : A) : Prom A := fun w => (Fulfilled a, w).
Definition reject {A} (e : Failure) : Prom A := fun w => (Rejected e, w).

(** [p.then(f)] *)
Definition then_ {A B} (p : Prom A) (f : A -> Prom B) : Prom B :=
  fun w =>
    match p w with
    | (Fulfilled a, w') => f a w'
    | (Rejected e, w') => (Rejected e, w')
    | (Pending, w') => (Pending, w')
    end.

(** [p.catch(h)] *)
Definition catch_ {A} (p : Prom A) (h : Failure -> Prom A) : Prom A :=
  fun w =>
    match p w with
    | (Fulfilled a, w') => (Fulfilled a, w')
    | (Rejected e, w') => h e w'
    | (Pending, w') => (Pending, w')
    end.

(** An expression statement: the value of the call is dropped. *)
Definition stmt {A} (p : Prom A) : Prom unit :=
  fun w => (Fulfilled tt, snd (p w)).

Definition emit (e : Event Path) : Prom unit :=
  fun w => (Fulfilled tt,
            {| fs := fs w; trace := trace w ++ [e]; vars := vars w |}).

Definition get_vars : Prom L := fun w => (Fulfilled (vars w), w).
Definition set_vars (l : L) : Prom unit :=
  fun w => (Fulfilled tt, {| fs := fs w; trace := trace w; vars := l |}).

(** A call on the manager: it is recorded, the manager's state advances and
    the promise settles with the outcome. *)
Definition fs_call {A} (c : FsCall Path) (op : FS -> Outcome A * FS) : Prom A :=
  fun w =>
    let '(r, fs') := op (fs w) in
    (match r with Ok a => Fulfilled a | Fail e => Rejected e end,
     {| fs := fs'; trace := trace w ++ [Fs c]; vars := vars w |}).

Definition ready : Prom unit := emit Ready.
Definition stdout_write (text : string) : Prom unit := emit (Write text).
Definition closeOk : Prom unit := emit CloseOk.

Definition closeError (cx : ExecuteContext) (value : Failure) : Prom unit :=
  fun w =>
    (match closeErrorResult cx with
     | ReturnsUndefined => Fulfilled tt
     | ReturnsRejected => Rejected value
     end,
     {| fs := fs w; trace := trace w ++ [CloseError value]; vars := vars w |}).

End Promise.

Notation "p >> q" := (then_ p (fun _ => q))
  (at level 62, right associativity) : stdpp_scope.

(** The calls that close the context, among the events of a trace. *)
Definition is_close {Path} (e : Event Path) : bool :=
  match e with
  | CloseOk | CloseError _ => true
  | _ => false
  end.

Definition closes {Path} (tr : list (Event Path)) : list (Event Path) :=
  filter (fun e => is_close e = true) tr.

Definition is_fs {Path} (e : Event Path) : bool :=
  match e with
  | Fs _ => true
  | _ => false
  end.

Definition fs_calls {Path} (tr : list (Event Path)) : list (Event Path) :=
  filter (fun e => is_fs e = true) tr.

(** ** ls *)

Module Ls.
Section Ls.
Import Js.
Context {Path FS : Type}.
Context `{DateHost} `{ModeHost} `{PathHost Path} `{FileSystemManager Path FS}.

Definition usage : string :=
  join crlf [
    "usage: ls [<path>]";
    "List a file or the contents of a directory.";
    EmptyString;
    "If <path> is not provided it defaults to the current directory."
  ] +:+ crlf.

(** The end of the header line, by the number of names. *)
Definition count_text (n : nat) : string :=
  match n with
  | 0 => "empty."
  | 1 => "1 entry:"
  | _ => pretty n +:+ " entries:"
  end.

(** [names[0].length], raised by the first [forEach]. *)
Definition longest_of (names : list string) : nat :=
  match names with
  | [] => 0
  | first :: _ =>
      fold_left
        (fun longest name =>
           if (longest <? String.length name)%nat then String.length name
           else longest)
        names (String.length first)
  end.

(** What the second [forEach] appends for one name; [None] when
    [listResult[name]] is undefined and reading its mode throws. *)
Definition entry_text (listResult : gmap string StatResult) (longest : nat) (name : string)
  : option string :=
  stat ← listResult !! name;
  Some (name +:+
        (if truthy (bit_and (mode stat) Mode_D) then "/" else " ") +:+
        spaces (longest - String.length name) +:+
        "   " +:+ formatStat stat +:+ nl).

Definition concat_strings (xs : list string) : string :=
  foldr String.append EmptyString xs.

(** [Object.keys(listResult).sort()] *)
Definition sorted_names (listResult : gmap string StatResult) : list string :=
  sort_strings (map fst (map_to_list listResult)).

(** The text [rv] written for a directory. *)
Definition listing_text (path : Path) (listResult : gmap string StatResult) : option string :=
  let names := sorted_names listResult in
  let rv := "Listing of " +:+ quote (path_spec path) +:+ ", " +:+
            count_text (length names) +:+ nl in
  if (0 <? length names)%nat then
    lines ← mapM (entry_text listResult (longest_of names)) names;
    Some (rv +:+ concat_strings lines)
  else Some rv.

(** The text written for a path that is not a directory. *)
Definition single_text (path : Path) (stat : StatResult) : string :=
  getBaseName path +:+ "  " +:+ formatStat stat +:+ nl.

Definition listPathSpec (cx : ExecuteContext) (pathSpec : string)
  : Prom (Path:=Path) (FS:=FS) (L:=unit) unit :=
  let pwd := getPwd cx in
  let path := Path_abs pwd pathSpec in
  catch_
    (then_ (fs_call (CList path) (fsm_list path))
       (fun listResult =>
          match listing_text path listResult with
          | Some rv => stdout_write rv >> resolve tt
          | None => reject (Foreign "TypeError")
          end))
    (fun value =>
       if test TypeMismatch value then
         catch_
           (then_ (fs_call (CStat path) (fsm_stat path))
              (fun stat => stdout_write (single_text path stat) >> resolve tt))
           (fun value => closeError cx value)
       else closeError cx value).

(** [listNext], on what is left of [pathList]. *)
Fixpoint listNext (cx : ExecuteContext) (pathList : list string)
  : Prom (Path:=Path) (FS:=FS) (L:=unit) unit :=
  match pathList with
  | [] => closeOk
  | pathSpec :: rest =>
      then_ (listPathSpec cx pathSpec) (fun _ => listNext cx rest)
  end.

Definition main (cx : ExecuteContext)
  : Prom (Path:=Path) (FS:=FS) (L:=unit) unit :=
  ready >>
  if arg_help cx then stdout_write usage >> closeOk
  else listNext cx (getArg_list cx [getPwd cx]).

End Ls.
End Ls.

(** Running a command from a file system: the events and the state left. *)
Definition run {Path FS L A} (p : Prom (Path:=Path) (FS:=FS) (L:=L) A)
  (fs0 : FS) (l0 : L) : list (Event Path) :=
  trace (snd (p {| fs := fs0; trace := []; vars := l0 |})).

Definition run_vars {Path FS L A} (p : Prom (Path:=Path) (FS:=FS) (L:=L) A)
  (fs0 : FS) (l0 : L) : L :=
  vars (snd (p {| fs := fs0; trace := []; vars := l0 |})).

Definition run_fs {Path FS L A} (p : Prom (Path:=Path) (FS:=FS) (L:=L) A)
  (fs0 : FS) (l0 : L) : FS :=
  fs (snd (p {| fs := fs0; trace := []; vars := l0 |})).

(** ** mkdir *)

Module Mkdir.

(** The variables of [main] that [mkdirNext] closes over. *)
Record Vars := {
  (** [list] *)
  targets : list string;
  errors : bool
}.

Section Mkdir.
Import Js.
Context {Path FS : Type}.
Context `{PathHost Path} `{FileSystemManager Path FS} `{ErrorHost}.

Definition usage : string :=
  join crlf [
    "usage: mkdir <path> ...";
    "Create one or more new directories.";
    EmptyString;
    "All parent directories must already exist."
  ] +:+ crlf.

Definition error_line (path : Path) (e : Failure) : string :=
  "mkdir: " +:+ path_originalSpec path +:+ ": " +:+ failure_toString e +:+ nl.

Definition summary : Failure :=
  AxiomError Runtime "Some directories could not be created".

(** [mkdirNext].  Each call that finds a target shifts it off the shared
    list and uses one unit of [fuel]; without fuel the promise stays
    pending. *)
Fixpoint mkdirNext (cx : ExecuteContext) (fuel : nat)
  : Prom (Path:=Path) (FS:=FS) (L:=Vars) unit :=
  fun w =>
    match targets (vars w) with
    | [] => (Fulfilled tt, w)
    | pathSpec :: rest =>
        match fuel with
        | O => (Pending, w)
        | S fuel' =>
            (set_vars {| targets := rest; errors := errors (vars w) |} >>
             let path := Path_abs (getPwd cx) pathSpec in
             catch_
               (then_ (fs_call (CMkdir path) (fsm_mkdir path))
                  (fun _ => mkdirNext cx fuel'))
               (fun e =>
                  then_ get_vars
                    (fun v => set_vars {| targets := targets v; errors := true |}) >>
                  stdout_write (error_line path e) >>
                  mkdirNext cx fuel')) w
        end
    end.

Definition main (fuel : nat) (cx : ExecuteContext)
  : Prom (Path:=Path) (FS:=FS) (L:=Vars) unit :=
  ready >>
  let list0 := getArg_list cx [] in
  if (length list0 =? 0)%nat || arg_help cx then
    stdout_write usage >> closeOk
  else
    set_vars {| targets := list0; errors := false |} >>
    mkdirNext cx fuel >>
    then_ get_vars
      (fun v => if errors v then stmt (closeError cx summary) else closeOk).

End Mkdir.

(** The variables before [main] assigns them. *)
Definition vars0 : Vars := {| targets := []; errors := false |}.

End Mkdir.

(** ** mv *)

Module Mv.
Section Mv.
Import Js.
Context {Path FS : Type}.
Context `{PathHost Path} `{FileSystemManager Path FS}.

Definition usage : string :=
  join crlf [
    "usage: mv <source> <destination>";
    "Move a file to a new location.";
    EmptyString;
    "If both locations are on the same file system this will perform an";
    "atomic move.  If not, it'll perform a copy and delete (see `cp -h` ";
    "for the details on how copying works)."
  ] +:+ crlf.

Definition main (cx : ExecuteContext)
  : Prom (Path:=Path) (FS:=FS) (L:=unit) unit :=
  ready >>
  let list := getArg_list cx [] in
  if negb (length list =? 2)%nat || arg_help cx then
    stdout_write usage >> closeOk
  else
    let fromPathSpec := default EmptyString (list !! 0%nat) in
    let toPathSpec := default EmptyString (list !! 1%nat) in
    let pwd := getPwd cx in
    let fromPath := Path_abs pwd fromPathSpec in
    let toPath := Path_abs pwd toPathSpec in
    catch_
      (then_ (fs_call (CMove fromPath toPath) (fsm_move fromPath toPath))
         (fun _ => closeOk))
      (fun err => stmt (closeError cx err)).

End Mv.
End Mv.

(** ** import *)

Module ImportCommand.

(** A [File] of the chooser's [FileList]. *)
Record File := {
  name : string;
  webkitRelativePath : option string;
  content : string
}.

(** The fields of the [ImportCommand] that change, the children the command
    gave to [document.body], and the timers of [handleFileCancel_] that have
    not run yet. *)
Record Vars (Path : Type) := {
  destination : option Path;
  singleFile_ : bool;
  filesChosen_ : bool;
  body : list Element;
  timers : nat;
  (** the [change] and [focus] listeners are registered *)
  listening : bool
}.
Arguments destination {Path} v.
Arguments singleFile_ {Path} v.
Arguments filesChosen_ {Path} v.
Arguments body {Path} v.
Arguments timers {Path} v.
Arguments listening {Path} v.

(** The state [new ImportCommand(cx)] starts from. *)
Definition vars0 {Path} : Vars Path :=
  {| destination := None; singleFile_ := false; filesChosen_ := false;
     body := []; timers := 0; listening := false |}.

(** What happens in the page after [main] has returned. *)
Inductive Step :=
| FocusDummy
| TimerFires
| Change (files : list File).

Section Command.
Import Js.
Context {Path FS : Type}.
Context `{PathHost Path} `{FileSystemManager Path FS}.

Definition usage : string :=
  join crlf [
    "usage: import [<target-directory>] [-f|--file]";
    "Import a directory from the local file system.";
    EmptyString;
    "If <target-directory> is provided, the file(s) will be imported there.";
    "If not, they will be imported into the current directory.";
    EmptyString;
    "Imports a directory by default (if supported by browser).  If -f is";
    "provided, only a single file is imported."
  ] +:+ crlf.

Definition P (A : Type) : Type := Prom (Path:=Path) (FS:=FS) (L:=Vars Path) A.

Definition pending {A} : P A := fun w => (Pending, w).

Definition update (f : Vars Path -> Vars Path) : P unit :=
  then_ get_vars (fun v => set_vars (f v)).

Definition appendChild (el : Element) : P unit :=
  update (fun v =>
    {| destination := destination v; singleFile_ := singleFile_ v;
       filesChosen_ := filesChosen_ v; body := body v ++ [el];
       timers := timers v; listening := listening v |}) >>
  emit (Dom (AppendChild el)).

(** [document.body.removeChild(el)] throws when [el] is not a child. *)
Definition removeChild (el : Element) : P unit :=
  emit (Dom (RemoveChild el)) >>
  then_ get_vars (fun v =>
    if bool_decide (el ∈ body v) then
      set_vars
        {| destination := destination v; singleFile_ := singleFile_ v;
           filesChosen_ := filesChosen_ v;
           body := filter (fun x => x ≠ el) (body v);
           timers := timers v; listening := listening v |}
    else reject (Foreign "NotFoundError")).

Definition destroy_ : P unit :=
  removeChild FileInput >>
  removeChild DummyFocusInput >>
  emit (Dom (Focus OriginalFocus)).

Definition import (dest : Path) (forceSingleFile : bool) : P unit :=
  update (fun v =>
    {| destination := Some dest; singleFile_ := forceSingleFile;
       filesChosen_ := filesChosen_ v; body := body v;
       timers := timers v; listening := listening v |}) >>
  appendChild DummyFocusInput >>
  emit (Dom (Focus DummyFocusInput)) >>
  appendChild FileInput >>
  emit (Dom (Click FileInput)) >>
  update (fun v =>
    {| destination := destination v; singleFile_ := singleFile_ v;
       filesChosen_ := filesChosen_ v; body := body v;
       timers := timers v; listening := true |}).

(** [mkdirParent_]; [fuel] bounds the walk to the root. *)
Fixpoint mkdirParent_ (fuel : nat) (path : Path) : P unit :=
  match getParentPath path with
  | None => resolve tt
  | Some parentPath =>
      match fuel with
      | O => pending
      | S fuel' =>
          then_ (mkdirParent_ fuel' parentPath)
            (fun _ =>
               catch_ (fs_call (CMkdir path) (fsm_mkdir path))
                 (fun e => if test Duplicate e then resolve tt else reject e))
      end
  end.

(** [handleFileCancel_]: the check is put off by 100 ms. *)
Definition handleFileCancel_ : P unit :=
  update (fun v =>
    {| destination := destination v; singleFile_ := singleFile_ v;
       filesChosen_ := filesChosen_ v; body := body v;
       timers := S (timers v); listening := listening v |}).

(** The function [handleFileCancel_] hands to [setTimeout]. *)
Definition cancel_timeout (cx : ExecuteContext) : P unit :=
  then_ get_vars (fun v =>
    if filesChosen_ v then resolve tt
    else
      destroy_ >>
      stmt (closeError cx (AxiomError Missing "file selection"))).

(** [onFileLoad]: the value the completer of the file is resolved with,
    [None] for [null].  A path without a parent is outside what the manager
    accepts; the promise of that file then stays pending. *)
Definition onFileLoad (fuel : nat) (path : Path) (fileContent : string)
  : P (option Failure) :=
  match getParentPath path with
  | None => pending
  | Some parentDirectory =>
      catch_
        (then_
           (then_
              (catch_
                 (then_ (fs_call (CStat parentDirectory) (fsm_stat parentDirectory))
                    (fun _ => resolve tt))
                 (fun e =>
                    if test NotFound e then mkdirParent_ fuel parentDirectory
                    else reject e))
              (fun _ => fs_call (CWriteFile path fileContent)
                          (fsm_writeFile path fileContent)))
           (fun _ => resolve None))
        (fun e => resolve (Some e))
  end.

(** [Promise.all] of two settled states. *)
Definition all_cons {A} (r : Settled A) (rs : Settled (list A)) : Settled (list A) :=
  match r, rs with
  | Fulfilled a, Fulfilled l => Fulfilled (a :: l)
  | Rejected e, _ => Rejected e
  | _, Rejected e => Rejected e
  | _, _ => Pending
  end.

(** The readers of the loop, in the run in which they load in the order of
    the files and the chain of a file has settled before the next reader
    loads.  With one file, or none, there is no other run; with more files
    the calls of their chains can also alternate, which this function does
    not show: what is proved of it for several files holds of this order of
    the calls.  The content of a file is what its reader loads. *)
Fixpoint copy_all (fuel : nat) (dest : Path) (single : bool) (files : list File)
  : P (list (option Failure)) :=
  match files with
  | [] => resolve []
  | f :: rest =>
      fun w =>
        let relativePath :=
          match webkitRelativePath f with
          | Some rel => if single then name f else rel
          | None => name f
          end in
        let path := Path_abs (path_spec dest) relativePath in
        let '(r, w1) := onFileLoad fuel path (content f) w in
        let '(rs, w2) := copy_all fuel dest single rest w1 in
        (all_cons r rs, w2)
  end.

Definition handleFileSelect_ (fuel : nat) (cx : ExecuteContext) (files : list File)
  : P unit :=
  update (fun v =>
    {| destination := destination v; singleFile_ := singleFile_ v;
       filesChosen_ := true; body := body v;
       timers := timers v; listening := listening v |}) >>
  then_ get_vars (fun v =>
    match destination v with
    | None => reject (Foreign "TypeError")
    | Some dest =>
        then_ (copy_all fuel dest (singleFile_ v) files)
          (fun values =>
             destroy_ >>
             let errors := omap id values in
             if (length errors =? 0)%nat then closeOk
             else stmt (closeError cx (AxiomErrorOf Unknown errors)))
    end).

Definition main (cx : ExecuteContext) : P unit :=
  ready >>
  let list := getArg_list cx [] in
  let forceSingleFile := arg_file cx in
  if (1 <? length list)%nat || arg_help cx then
    stdout_write usage >> closeOk
  else
    let pathSpec := default "." (list !! 0%nat) in
    let pwd := getPwd cx in
    let path := Path_abs pwd pathSpec in
    import path forceSingleFile.

(** One event of the page.  The decoy can only get the focus while it is in
    the document; a handler that throws ends there. *)
Definition step (fuel : nat) (cx : ExecuteContext) (s : Step) : P unit :=
  then_ get_vars (fun v =>
    if listening v then
      match s with
      | FocusDummy =>
          if bool_decide (DummyFocusInput ∈ body v) then handleFileCancel_
          else resolve tt
      | TimerFires =>
          match timers v with
          | O => resolve tt
          | S n =>
              update (fun v =>
                {| destination := destination v; singleFile_ := singleFile_ v;
                   filesChosen_ := filesChosen_ v; body := body v;
                   timers := n; listening := listening v |}) >>
              stmt (cancel_timeout cx)
          end
      | Change files => stmt (handleFileSelect_ fuel cx files)
      end
    else resolve tt).

Fixpoint steps (fuel : nat) (cx : ExecuteContext) (ss : list Step) : P unit :=
  match ss with
  | [] => resolve tt
  | s :: rest => stmt (step fuel cx s) >> steps fuel cx rest
  end.

(** An invocation: [main], then the events of the page. *)
Definition session (fuel : nat) (cx : ExecuteContext) (ss : list Step) : P unit :=
  stmt (main cx) >> steps fuel cx ss.

End Command.
End ImportCommand.

(** ** A host to run the commands on

    [axiom/fs/path], [axiom/core/error] and the file systems are not among
    the sources.  The general statements below hold for every host; the
    instances here serve to run the commands on concrete inputs. *)

Module Sample.
Import Js.

Definition two_digits (z : Z) : string := zpad (Some z) 2.

(** Coordinated universal time, with a 24-hour clock as the locale's time. *)
Global Instance utc : DateHost := {|
  localOffset := fun _ => 0%Z;
  localeTime := fun ms =>
    let s := ((ms mod Date.msPerDay) / 1000)%Z in
    two_digits (s / 3600) +:+ ":" +:+ two_digits ((s / 60) mod 60) +:+ ":" +:+
    two_digits (s mod 60)
|}.

Definition flag (m bit : Z) (letter : string) : string :=
  if truthy (bit_and m bit) then letter else "-".

(** Modelled from the spec: a bitmask with one bit per class of entry and a
    symbolic display form; the values of the bits are chosen here. *)
Global Instance modes : ModeHost := {|
  Mode_X := 1;
  Mode_D := 8;
  modeIntToString := fun m =>
    flag m 1 "X" +:+ flag m 2 "W" +:+ flag m 4 "R" +:+ flag m 8 "D" +:+ flag m 16 "K"
|}.

(** A path: its segments below the root, and the text it was built from. *)
Record SPath := {
  elements : list string;
  original : string
}.

(** The segments of a path text, split at the slashes. *)
Fixpoint split_go (cur : string) (s : string) : list string :=
  match s with
  | EmptyString => [String.rev cur]
  | String c rest =>
      if Ascii.eqb c "/"%char then String.rev cur :: split_go EmptyString rest
      else split_go (String c cur) rest
  end.

Definition split_slash (s : string) : list string := split_go EmptyString s.

(** Empty segments and [.] are dropped, [..] takes the last segment away. *)
Fixpoint normalize (acc : list string) (segs : list string) : list string :=
  match segs with
  | [] => rev acc
  | seg :: rest =>
      if bool_decide (seg = EmptyString) || bool_decide (seg = ".") then
        normalize acc rest
      else if bool_decide (seg = "..") then normalize (tail acc) rest
      else normalize (seg :: acc) rest
  end.

Definition is_absolute (s : string) : bool :=
  match s with
  | String c _ => Ascii.eqb c "/"%char
  | EmptyString => false
  end.

(** Modelled from the spec: the path resolver of section 4.1.  An absolute
    spec is normalized on its own, any other is joined to the working
    directory first. *)
Definition abs (pwd pathSpec : string) : SPath :=
  let full := if is_absolute pathSpec then pathSpec
              else if bool_decide (pwd = "/") then pwd +:+ pathSpec
              else pwd +:+ "/" +:+ pathSpec in
  {| elements := normalize [] (split_slash full); original := full |}.

Global Instance paths : PathHost SPath := {|
  Path_abs := abs;
  path_spec := fun p => "/" +:+ join "/" (elements p);
  path_originalSpec := original;
  getBaseName := fun p => default EmptyString (last (elements p));
  getParentPath := fun p =>
    match elements p with
    | [] => None
    | _ => Some {| elements := removelast (elements p);
                   original := "/" +:+ join "/" (removelast (elements p)) |}
    end
|}.

Definition kind_name (k : ErrKind) : string :=
  match k with
  | TypeMismatch => "TypeMismatch" | NotFound => "NotFound"
  | Duplicate => "Duplicate" | Missing => "Missing" | Runtime => "Runtime"
  | Unknown => "Unknown" | InvalidPath => "InvalidPath"
  end.

Global Instance errors_host : ErrorHost := {|
  failure_toString := fun e =>
    match e with
    | AxiomError k detail => "AxiomError." +:+ kind_name k +:+ " " +:+ quote detail
    | AxiomErrorOf k _ => "AxiomError." +:+ kind_name k
    | Foreign text => text
    end
|}.

(** An in-memory file system: the entries by their segments.  The root is
    always a directory. *)
Inductive Node :=
| DirNode
| FileNode (stat : StatResult).

Definition MemFS := gmap (list string) Node.

Definition dir_stat : StatResult :=
  {| mode := 8 + 4; mtime := None; props := ∅ |}.

Definition node_stat (n : Node) : StatResult :=
  match n with
  | DirNode => dir_stat
  | FileNode stat => stat
  end.

Definition find (m : gmap (list string) Node) (p : list string) : option Node :=
  match p with
  | [] => Some DirNode
  | _ => m !! p
  end.

(** The entries right below [p]. *)
Definition children (m : gmap (list string) Node) (p : list string)
  : gmap string StatResult :=
  map_fold
    (fun k n acc =>
       match last k with
       | Some base =>
           if bool_decide (removelast k = p) then <[base := node_stat n]> acc
           else acc
       | None => acc
       end)
    ∅ m.

Definition is_dir (m : gmap (list string) Node) (p : list string) : bool :=
  match find m p with
  | Some DirNode => true
  | _ => false
  end.

(** Modelled from the spec: the failures section 4.2 names for each
    operation of the manager. *)
Global Instance memfs : FileSystemManager SPath (gmap (list string) Node) := {|
  fsm_list := fun p m =>
    match find m (elements p) with
    | Some DirNode => (Ok (children m (elements p)), m)
    | Some (FileNode _) => (Fail (AxiomError TypeMismatch "dir"), m)
    | None => (Fail (AxiomError NotFound "path"), m)
    end;
  fsm_stat := fun p m =>
    match find m (elements p) with
    | Some n => (Ok (node_stat n), m)
    | None => (Fail (AxiomError NotFound "path"), m)
    end;
  fsm_mkdir := fun p m =>
    match find m (elements p) with
    | Some _ => (Fail (AxiomError Duplicate "directory-name"), m)
    | None =>
        if is_dir m (removelast (elements p)) then
          (Ok tt, <[elements p := DirNode]> m)
        else (Fail (AxiomError NotFound "path"), m)
    end;
  fsm_move := fun src dst m =>
    match m !! elements src with
    | Some n => (Ok tt, <[elements dst := n]> (delete (elements src) m))
    | None => (Fail (AxiomError NotFound "path"), m)
    end;
  fsm_writeFile := fun p text m =>
    if is_dir m (removelast (elements p)) then
      (Ok tt,
       <[elements p :=
           FileNode {| mode := 4 + 2; mtime := None;
                       props := {[ "size" := VNum (Z.of_nat (String.length text)) ]} |}]> m)
    else (Fail (AxiomError NotFound "path"), m)
|}.

(** A file of 12 bytes written on 2015-03-17 (a Tuesday) at 09:30:00. *)
Definition notes_stat : StatResult :=
  {| mode := 4 + 2; mtime := Some 1426584600000%Z;
     props := {[ "size" := VNum 12 ]} |}.

(** An executable. *)
Definition tool_stat : StatResult :=
  {| mode := 1; mtime := None;
     props := {[ "signature" := VObj [("_", VStr "@")] ]} |}.

(** /home with the file notes, /bin with the executable tool, and the empty
    directory /tmp. *)
Definition disk : gmap (list string) Node :=
  {[ ["home"] := DirNode;
     ["home"; "notes"] := FileNode notes_stat;
     ["bin"] := DirNode;
     ["bin"; "tool"] := FileNode tool_stat;
     ["tmp"] := DirNode ]}.

Definition cx_of (args : list string) (pwd : string) : ExecuteContext :=
  {| arg_list := Some args; arg_help := false; arg_file := false;
     getPwd := pwd; closeErrorResult := ReturnsUndefined |}.

(** The same with the help flag. *)
Definition cx_help (args : list string) (pwd : string) : ExecuteContext :=
  {| arg_list := Some args; arg_help := true; arg_file := false;
     getPwd := pwd; closeErrorResult := ReturnsUndefined |}.

End Sample.

(** ** The steps the description gives for the commands *)

Section MkdirSteps.
Context {Path FS : Type}.
Context `{PathHost Path} `{FileSystemManager Path FS} `{ErrorHost}.

(** What the description asks of [mkdir]: the targets in the order of the
    arguments, one call each on the file system as the calls before left
    it, a line for each failure, and whether any target failed. *)
Fixpoint mkdir_steps (cx : ExecuteContext) (targets : list string) (fs0 : FS)
  : list (Event Path) * bool * FS :=
  match targets with
  | [] => ([], false, fs0)
  | pathSpec :: rest =>
      let path := Path_abs (getPwd cx) pathSpec in
      let '(r, fs1) := fsm_mkdir path fs0 in
      let '(evs, failed, fs2) := mkdir_steps cx rest fs1 in
      match r with
      | Ok _ => (Fs (CMkdir path) :: evs, failed, fs2)
      | Fail e =>
          (Fs (CMkdir path) :: Write (Mkdir.error_line path e) :: evs, true, fs2)
      end
  end.

(** Some target fails when its turn comes. *)
Fixpoint some_mkdir_fails (cx : ExecuteContext) (targets : list string) (fs0 : FS)
  : Prop :=
  match targets with
  | [] => False
  | pathSpec :: rest =>
      let path := Path_abs (getPwd cx) pathSpec in
      (∃ e, fst (fsm_mkdir path fs0) = Fail e) ∨
      some_mkdir_fails cx rest (snd (fsm_mkdir path fs0))
  end.

End MkdirSteps.

Section ImportStates.
Import ImportCommand.
Context {Path : Type}.

(** The chooser is open: both inputs are in the document, no file has been
    chosen, [n] timers are waiting. *)
Definition waiting (d : option Path) (single : bool) (n : nat) : Vars Path :=
  {| destination := d; singleFile_ := single; filesChosen_ := false;
     body := [DummyFocusInput; FileInput]; timers := n; listening := true |}.

(** The cancellation has been handled: the inputs are gone. *)
Definition cancelled (d : option Path) (single : bool) (n : nat) : Vars Path :=
  {| destination := d; singleFile_ := single; filesChosen_ := false;
     body := []; timers := n; listening := true |}.

Definition opening : list (Event Path) :=
  [Ready; Dom (AppendChild DummyFocusInput); Dom (Focus DummyFocusInput);
   Dom (AppendChild FileInput); Dom (Click FileInput)].

Definition cancelling : list (Event Path) :=
  [Dom (RemoveChild FileInput); Dom (RemoveChild DummyFocusInput);
   Dom (Focus OriginalFocus); CloseError (AxiomError Missing "file selection")].

End ImportStates.

(** ** Further readings of a trace *)

Definition is_write {Path} (e : Event Path) : bool :=
  match e with
  | Write _ => true
  | _ => false
  end.

Definition writes {Path} (tr : list (Event Path)) : list (Event Path) :=
  filter (fun e => is_write e = true) tr.

Definition is_list_call {Path} (e : Event Path) : bool :=
  match e with
  | Fs (CList _) => true
  | _ => false
  end.

Definition list_calls {Path} (tr : list (Event Path)) : list (Event Path) :=
  filter (fun e => is_list_call e = true) tr.

(** A call that changes the file system. *)
Definition mutating {Path} (e : Event Path) : bool :=
  match e with
  | Fs (CMkdir _) | Fs (CMove _ _) | Fs (CWriteFile _ _) => true
  | _ => false
  end.

Section MoreSteps.
Context {Path FS : Type}.
Context `{PathHost Path} `{FileSystemManager Path FS} `{ErrorHost}.

(** The targets of [mkdir] that fail when their turn comes, with the
    failure, in the order of the arguments. *)
Fixpoint mkdir_failures (cx : ExecuteContext) (targets : list string) (fs0 : FS)
  : list (Path * Failure) :=
  match targets with
  | [] => []
  | pathSpec :: rest =>
      let path := Path_abs (getPwd cx) pathSpec in
      let later := mkdir_failures cx rest (snd (fsm_mkdir path fs0)) in
      match fst (fsm_mkdir path fs0) with
      | Ok _ => later
      | Fail e => (path, e) :: later
      end
  end.

(** A path and its ancestors below the root, the nearest to the root first;
    [None] when the walk to the root is longer than [fuel]. *)
Fixpoint ancestry (fuel : nat) (path : Path) : option (list Path) :=
  match getParentPath path with
  | None => Some []
  | Some parentPath =>
      match fuel with
      | O => None
      | S fuel' => chain ← ancestry fuel' parentPath; Some (chain ++ [path])
      end
  end.

(** The calls of [mkdir] down a chain of directories, each on the file
    system as the calls before it left it: the events, how the chain
    settles, and the file system after it.  A failure that is a duplicate
    is passed over; the first other failure ends the chain and is what it is
    rejected with. *)
Fixpoint mkdir_chain (chain : list Path) (fs0 : FS)
  : list (Event Path) * Settled unit * FS :=
  match chain with
  | [] => ([], Fulfilled tt, fs0)
  | p :: rest =>
      match fsm_mkdir p fs0 with
      | (Ok _, fs1) =>
          let '(evs, r, fs2) := mkdir_chain rest fs1 in
          (Fs (CMkdir p) :: evs, r, fs2)
      | (Fail e, fs1) =>
          if test Duplicate e then
            let '(evs, r, fs2) := mkdir_chain rest fs1 in
            (Fs (CMkdir p) :: evs, r, fs2)
          else ([Fs (CMkdir p)], Rejected e, fs1)
      end
  end.

End MoreSteps.

(** A file without its relative path. *)
Definition flat_file (f : ImportCommand.File) : ImportCommand.File :=
  {| ImportCommand.name := ImportCommand.name f;
     ImportCommand.webkitRelativePath := None;
     ImportCommand.content := ImportCommand.content f |}.

(** ** The app launcher

    The script that starts the shell: a launch that comes before the
    commands service is ready is remembered and made up for later. *)

Module Bootstrap.

(** [didLaunchEarly], whether [axiomCommands] has been assigned, and the
    number of calls of [dispatch('launch-app')] so far. *)
Record State := {
  didLaunchEarly : bool;
  axiomCommands : bool;
  dispatched : nat
}.

Definition init : State :=
  {| didLaunchEarly := false; axiomCommands := false; dispatched := 0 |}.

(** [onLaunched]; [ready] is the answer of [isReadyState('READY')], asked
    only when [axiomCommands] is not null. *)
Definition onLaunched (ready : bool) (s : State) : State :=
  if negb (axiomCommands s) || negb ready then
    {| didLaunchEarly := true; axiomCommands := axiomCommands s;
       dispatched := dispatched s |}
  else
    {| didLaunchEarly := didLaunchEarly s; axiomCommands := axiomCommands s;
       dispatched := S (dispatched s) |}.

(** What happens to the script: the launcher icon is clicked, [shellMain]
    resolves and the service binding is assigned, the promise of
    [whenReady] resolves.  The two that call [onLaunched] carry the answer
    the binding gives about its state. *)
Inductive Event :=
| Launched (ready : bool)
| ShellStarted
| WhenReady (ready : bool).

Definition step (s : State) (e : Event) : State :=
  match e with
  | Launched ready => onLaunched ready s
  | ShellStarted =>
      {| didLaunchEarly := didLaunchEarly s; axiomCommands := true;
         dispatched := dispatched s |}
  | WhenReady ready =>
      if axiomCommands s then
        if didLaunchEarly s then onLaunched ready s else s
      else s
  end.

Definition run (es : list Event) : State := fold_left step es init.

End Bootstrap.

(** ** A manager that is out of order

    Every [list] fails with a type mismatch and every [stat] with a failure
    of its own; it serves to run the paths of the code that the in-memory
    file system never takes. *)

Module Broken.

Definition out_of_order : Failure := AxiomError Runtime "out of order".

Definition manager : FileSystemManager Sample.SPath unit := {|
  fsm_list := fun _ u => (Fail (AxiomError TypeMismatch "dir"), u);
  fsm_stat := fun _ u => (Fail out_of_order, u);
  fsm_mkdir := fun _ u => (Ok tt, u);
  fsm_move := fun _ _ u => (Ok tt, u);
  fsm_writeFile := fun _ _ u => (Ok tt, u)
|}.

End Broken.

(** ** Inputs for the import on the sample host *)

Section SampleImport.
Import Sample.

(** The sample disk before [main] has run. *)
Definition w_open
  : World SPath (gmap (list string) Node) (ImportCommand.Vars SPath) :=
  {| fs := disk; trace := []; vars := ImportCommand.vars0 |}.

(** The directories to make for /tmp/d/e, from the root down. *)
Definition tmp_d_e : list SPath :=
  [{| elements := ["tmp"]; original := "/tmp" |};
   {| elements := ["tmp"; "d"]; original := "/tmp/d" |};
   abs "/" "/tmp/d/e"].

(** The directories to make for /home/notes/x/y, where notes is a file. *)
Definition home_notes_x_y : list SPath :=
  [{| elements := ["home"]; original := "/home" |};
   {| elements := ["home"; "notes"]; original := "/home/notes" |};
   {| elements := ["home"; "notes"; "x"]; original := "/home/notes/x" |};
   abs "/" "/home/notes/x/y"].

(** A file picked in the chooser, in the directory d. *)
Definition picked : ImportCommand.File :=
  {| ImportCommand.name := "f.txt";
     ImportCommand.webkitRelativePath := Some "d/f.txt";
     ImportCommand.content := "hello" |}.

(** A listing with a directory, a file and an executable. *)
Definition mixed_listing : gmap string StatResult :=
  {[ "bin" := dir_stat; "notes" := notes_stat; "t" := tool_stat ]}.

(** A file that is not executable and carries a signature. *)
Definition signed_stat : StatResult :=
  {| mode := 4 + 2; mtime := None;
     props := {[ "signature" := Js.VStr "sig"; "size" := Js.VNum 12 ]} |}.

End SampleImport.

(** * Properties *)

(** ** Bit operations on modes *)

Section Bits.
Import Js.


Lemma bit_xor_zero (a b : Z) : bit_xor a b = 0%Z → to_int32 a = to_int32 b.
Proof. unfold bit_xor. apply Z.lxor_eq. Qed.

Lemma truthy_xor_of_ne (a b : Z) :
  to_int32 a ≠ to_int32 b → truthy (bit_xor a b) = true.
Proof.
  intros Hne. unfold truthy.
  destruct (Z.eqb_spec (bit_xor a b) 0) as [Hz|]; [|done].
  by apply bit_xor_zero in Hz.
Qed.

Lemma bit_and_zero_ne (a b : Z) :
  bit_and a b = 0%Z → to_int32 b ≠ 0%Z → to_int32 a ≠ to_int32 b.
Proof.
  unfold bit_and. intros Hand Hb Heq. rewrite Heq, Z.land_diag in Hand. done.
Qed.

End Bits.

(** ** formatStat *)

Section FormatStatFacts.
Import Js.
Context `{DateHost} `{ModeHost}.

Lemma formatStat_keys_X (stat : StatResult) :
  mode stat = Mode_X → formatStat_keys stat = ["signature"].
Proof.
  intros Heq. unfold formatStat_keys. by rewrite Heq, Z.eqb_refl.
Qed.

Lemma formatStat_keys_filtered (stat : StatResult) :
  to_int32 (mode stat) ≠ to_int32 Mode_X →
  formatStat_keys stat =
    filter (fun n => n ≠ "signature") (sort_strings (elements (stat_keys stat))).
Proof.
  intros Hne. unfold formatStat_keys.
  destruct (Z.eqb_spec (mode stat) Mode_X) as [Heq|_].
  - by rewrite Heq in Hne.
  - by rewrite truthy_xor_of_ne.
Qed.

Lemma formatStat_keys_no_signature (stat : StatResult) :
  to_int32 (mode stat) ≠ to_int32 Mode_X →
  "signature" ∉ formatStat_keys stat.
Proof.
  intros Hne. rewrite formatStat_keys_filtered by done.
  rewrite list_elem_of_filter. by intros [Hn _].
Qed.

(** With 32 bits that differ from the executable value, the output is made
    of the fields of the keys other than signature, in their order. *)
Lemma formatStat_filtered (stat : StatResult) :
  to_int32 (mode stat) ≠ to_int32 Mode_X →
  ("signature" ∉ formatStat_keys stat) ∧
  formatStat stat =
    join ", "
      (map (formatStat_field stat)
         (filter (fun n => n ≠ "signature")
            (sort_strings (elements (stat_keys stat))))) ∧
  Forall (other_field stat) (formatStat_ary stat).
Proof.
  intros Hne. split_and!.
  - by apply formatStat_keys_no_signature.
  - unfold formatStat, formatStat_ary. by rewrite formatStat_keys_filtered.
  - unfold formatStat_ary. rewrite formatStat_keys_filtered by done.
    apply Forall_forall. intros field Hin.
    apply list_elem_of_fmap in Hin as (key & -> & Hkey).
    apply list_elem_of_filter in Hkey as [Hns Hkey].
    exists key. split_and!; [|done..].
    apply elem_of_elements. unfold sort_strings in Hkey.
    by rewrite merge_sort_Permutation in Hkey.
Qed.


(** C3, as amended. With an executable value that has a bit among the 32
    the operators see: a mode equal to the executable value gives exactly
    one field, signature; a mode without the executable bit is shown by the
    fields of its keys other than signature, so that no element of [ary] is
    the field of signature, whether the stat carries a signature or not. *)
Theorem formatStat_signature_exclusive (stat : StatResult) :
  to_int32 Mode_X ≠ 0%Z →
  (mode stat = Mode_X →
     formatStat_keys stat = ["signature"] ∧
     formatStat stat =
       "signature: " +:+ stringify_text (default VUndef (props stat !! "signature"))) ∧
  (bit_and (mode stat) Mode_X = 0%Z →
     ("signature" ∉ formatStat_keys stat) ∧
     formatStat stat =
       join ", "
         (map (formatStat_field stat)
            (filter (fun n => n ≠ "signature")
               (sort_strings (elements (stat_keys stat))))) ∧
     Forall (other_field stat) (formatStat_ary stat)).
Proof.
  intros Hx. split.
  - intros Heq. split; [by apply formatStat_keys_X|].
    unfold formatStat, formatStat_ary. rewrite formatStat_keys_X by done.
    reflexivity.
  - intros Hand. apply formatStat_filtered. by apply bit_and_zero_ne.
Qed.

End FormatStatFacts.

Section FormatStatDate.
Import Js.
Context `{DateHost} `{ModeHost}.

(** Whatever the date, the third component of the text is the day of the
    week, a number from 0 to 6. *)
Lemma mtime_text_weekday (stat : StatResult) (ms : Z) :
  mtime stat = Some ms →
  (Z.abs ms ≤ Date.maxTime)%Z →
  ∃ wd : Z,
    (0 ≤ wd ≤ 6)%Z ∧
    wd = ((Date.localDay ms + 4) mod 7)%Z ∧
    mtime_text stat =
      num_to_string (Date.getFullYear (Some ms)) +:+ "-" +:+
      zpad (z ← Date.getMonth (Some ms); Some (z + 1)%Z) 2 +:+ "-" +:+
      zpad (Some wd) 2 +:+ " " +:+ localeTime ms.
Proof.
  intros Hm Hvalid. exists ((Date.localDay ms + 4) mod 7)%Z.
  split; [|split; [done|]].
  - pose proof (Z.mod_pos_bound (Date.localDay ms + 4) 7 ltac:(lia)). lia.
  - unfold mtime_text, Date.make. rewrite Hm.
    destruct (Z.leb_spec (Z.abs ms) Date.maxTime) as [_|Hgt]; [done|lia].
Qed.

End FormatStatDate.

(** C4. The file written on Tuesday 2015-03-17 is shown with the date
    2015-03-02: the code reads the day of the week where the day of the
    month is meant. *)
Theorem formatStat_mtime_shows_weekday :
  mtime Sample.notes_stat = Some 1426584600000%Z ∧
  Date.civil (Date.localDay 1426584600000) = (2015, 3, 17)%Z ∧
  Date.getDate (Date.make (mtime Sample.notes_stat)) = Some 17%Z ∧
  Date.getDay (Date.make (mtime Sample.notes_stat)) = Some 2%Z ∧
  formatStat_value Sample.notes_stat "mtime" = Js.VStr "2015-03-02 09:30:00".
Proof. split_and!; vm_compute; reflexivity. Qed.

(** C3, the claim as stated fails: with the executable bit of value 1 and the
    directory bit of value 8, an entry of mode 9 has the executable bit set,
    carries a signature, and is shown with its mode alone. *)
Lemma formatStat_executable_bit_not_enough :
  let stat := {| mode := 9; mtime := None;
                 props := {[ "signature" := Js.VStr "sig" ]} |} in
  Js.bit_and (mode stat) Mode_X ≠ 0%Z ∧
  formatStat_keys stat = ["mode"] ∧
  formatStat_keys stat ≠ ["signature"].
Proof. split_and!; vm_compute; congruence. Qed.


Lemma formatStat_signature_exclusive_witness :
  (formatStat_keys Sample.tool_stat = ["signature"] ∧
   formatStat Sample.tool_stat =
     "signature: " +:+ Js.stringify_text (Js.VObj [("_", Js.VStr "@")])) ∧
  props signed_stat !! "signature" = Some (Js.VStr "sig") ∧
  ("signature" ∉ formatStat_keys signed_stat) ∧
  formatStat signed_stat =
    formatStat_field signed_stat "mode" +:+ ", size: 12".
Proof.
  assert (Hx : Js.to_int32 Mode_X ≠ 0%Z) by (vm_compute; discriminate).
  split; [|split_and!].
  - destruct (proj1 (formatStat_signature_exclusive Sample.tool_stat Hx) eq_refl)
      as [Hk Hf].
    split; [exact Hk|]. rewrite Hf. vm_compute. reflexivity.
  - vm_compute. reflexivity.
  - apply (proj2 (formatStat_signature_exclusive signed_stat Hx) eq_refl).
  - rewrite (proj1 (proj2 (proj2 (formatStat_signature_exclusive signed_stat Hx)
                                  eq_refl))).
    vm_compute. reflexivity.
Defined.


(** ** Traces *)

Lemma closes_cons {Path} (e : Event Path) (tr : list (Event Path)) :
  closes (e :: tr) = if is_close e then e :: closes tr else closes tr.
Proof.
  unfold closes. rewrite filter_cons. destruct (is_close e); by case_decide.
Qed.

Lemma closes_app {Path} (a b : list (Event Path)) :
  closes (a ++ b) = closes a ++ closes b.
Proof. unfold closes. apply filter_app. Qed.

(** ** Strings *)

Lemma string_length_app (a b : string) :
  String.length (a +:+ b) = String.length a + String.length b.
Proof.
  induction a as [|c a IH]; [done|].
  change (S (String.length (a +:+ b)) = S (String.length a) + String.length b).
  by rewrite IH.
Qed.

Lemma string_app_assoc (a b c : string) : (a +:+ b) +:+ c = a +:+ (b +:+ c).
Proof.
  induction a as [|x a IH]; [done|].
  change (String x ((a +:+ b) +:+ c) = String x (a +:+ (b +:+ c))).
  by rewrite IH.
Qed.

Lemma string_app_empty_r (a : string) : a +:+ EmptyString = a.
Proof.
  induction a as [|x a IH]; [done|].
  change (String x (a +:+ EmptyString) = String x a). by rewrite IH.
Qed.

Lemma spaces_length (n : nat) : String.length (Js.spaces n) = n.
Proof. induction n as [|n IH]; simpl; congruence. Qed.

(** ** ls: one target *)

Section LsFacts.
Import Js.
Context {Path FS : Type}.
Context `{DateHost} `{ModeHost} `{PathHost Path} `{FileSystemManager Path FS}.

Lemma sorted_names_perm (lr : gmap string StatResult) :
  Ls.sorted_names lr ≡ₚ (map_to_list lr).*1.
Proof. unfold Ls.sorted_names, sort_strings. apply merge_sort_Permutation. Qed.

Lemma sorted_names_length (lr : gmap string StatResult) :
  length (Ls.sorted_names lr) = size lr.
Proof.
  rewrite (Permutation_length (sorted_names_perm lr)).
  by rewrite length_fmap, length_map_to_list.
Qed.

Lemma sorted_names_lookup (lr : gmap string StatResult) (name : string) :
  name ∈ Ls.sorted_names lr → is_Some (lr !! name).
Proof.
  rewrite (sorted_names_perm lr), list_elem_of_fmap.
  intros [[k stat] [-> Hin]]. apply elem_of_map_to_list in Hin. by exists stat.
Qed.

(** Reading [listResult[name]] never fails on the names of the listing. *)
Lemma entry_lines_defined (lr : gmap string StatResult) (longest : nat) :
  ∃ lines,
    mapM (Ls.entry_text lr longest) (Ls.sorted_names lr) = Some lines ∧
    length lines = size lr.
Proof.
  destruct (mapM (Ls.entry_text lr longest) (Ls.sorted_names lr)) as [lines|] eqn:E.
  - exists lines. split; [done|].
    apply length_mapM in E. by rewrite <-E, sorted_names_length.
  - exfalso. apply mapM_None in E. apply Exists_exists in E as (name & Hin & Hnone).
    apply sorted_names_lookup in Hin as [stat Hst].
    unfold Ls.entry_text in Hnone. by rewrite Hst in Hnone.
Qed.

Lemma listing_text_defined (path : Path) (lr : gmap string StatResult) :
  ∃ lines,
    mapM (Ls.entry_text lr (Ls.longest_of (Ls.sorted_names lr)))
      (Ls.sorted_names lr) = Some lines ∧
    length lines = size lr ∧
    Ls.listing_text path lr =
      Some ("Listing of " +:+ quote (path_spec path) +:+ ", " +:+
            Ls.count_text (size lr) +:+ nl +:+ Ls.concat_strings lines).
Proof.
  destruct (entry_lines_defined lr (Ls.longest_of (Ls.sorted_names lr)))
    as (lines & Hlines & Hlen).
  exists lines. split_and!; [done..|].
  unfold Ls.listing_text. rewrite sorted_names_length, Hlines.
  destruct (size lr) as [|n] eqn:Hsize.
  - destruct lines; [|done].
    change (0 <? 0) with false. cbv iota.
    change (Ls.concat_strings []) with EmptyString.
    by rewrite ?string_app_assoc, string_app_empty_r.
  - change (0 <? S n) with true. cbv iota.
    unfold mbind, option_bind. by rewrite ?string_app_assoc.
Qed.

(** A directory: the listing is written and the promise is fulfilled. *)
Lemma listPathSpec_dir (cx : ExecuteContext) (pathSpec : string)
    (w : World Path FS unit) (lr : gmap string StatResult) (fs' : FS) (text : string) :
  let path := Path_abs (getPwd cx) pathSpec in
  fsm_list path (fs w) = (Ok lr, fs') →
  Ls.listing_text path lr = Some text →
  Ls.listPathSpec cx pathSpec w =
    (Fulfilled tt,
     {| fs := fs'; trace := (trace w ++ [Fs (CList path)]) ++ [Write text];
        vars := vars w |}).
Proof.
  intros path Hlist Htext.
  unfold Ls.listPathSpec, catch_, then_, fs_call. fold path.
  rewrite Hlist. simpl. rewrite Htext. reflexivity.
Qed.

(** Not a directory: [stat] is called and one line is written. *)
Lemma listPathSpec_file (cx : ExecuteContext) (pathSpec : string)
    (w : World Path FS unit) (e : Failure) (fs1 fs2 : FS) (stat : StatResult) :
  let path := Path_abs (getPwd cx) pathSpec in
  fsm_list path (fs w) = (Fail e, fs1) →
  test TypeMismatch e = true →
  fsm_stat path fs1 = (Ok stat, fs2) →
  Ls.listPathSpec cx pathSpec w =
    (Fulfilled tt,
     {| fs := fs2;
        trace := ((trace w ++ [Fs (CList path)]) ++ [Fs (CStat path)]) ++
                 [Write (Ls.single_text path stat)];
        vars := vars w |}).
Proof.
  intros path Hlist Htm Hstat.
  unfold Ls.listPathSpec, catch_, then_, fs_call. fold path.
  rewrite Hlist. simpl. rewrite Htm. simpl. rewrite Hstat. reflexivity.
Qed.

(** [list] fails otherwise: [closeError] is called, and what it hands back
    settles the promise. *)
Lemma listPathSpec_list_fails (cx : ExecuteContext) (pathSpec : string)
    (w : World Path FS unit) (e : Failure) (fs1 : FS) :
  let path := Path_abs (getPwd cx) pathSpec in
  fsm_list path (fs w) = (Fail e, fs1) →
  test TypeMismatch e = false →
  Ls.listPathSpec cx pathSpec w =
    (match closeErrorResult cx with
     | ReturnsUndefined => Fulfilled tt
     | ReturnsRejected => Rejected e
     end,
     {| fs := fs1; trace := (trace w ++ [Fs (CList path)]) ++ [CloseError e];
        vars := vars w |}).
Proof.
  intros path Hlist Htm.
  unfold Ls.listPathSpec, catch_, then_, fs_call. fold path.
  rewrite Hlist. simpl. rewrite Htm. reflexivity.
Qed.

(** The fallback [stat] fails: the same. *)
Lemma listPathSpec_stat_fails (cx : ExecuteContext) (pathSpec : string)
    (w : World Path FS unit) (e e' : Failure) (fs1 fs2 : FS) :
  let path := Path_abs (getPwd cx) pathSpec in
  fsm_list path (fs w) = (Fail e, fs1) →
  test TypeMismatch e = true →
  fsm_stat path fs1 = (Fail e', fs2) →
  Ls.listPathSpec cx pathSpec w =
    (match closeErrorResult cx with
     | ReturnsUndefined => Fulfilled tt
     | ReturnsRejected => Rejected e'
     end,
     {| fs := fs2;
        trace := ((trace w ++ [Fs (CList path)]) ++ [Fs (CStat path)]) ++
                 [CloseError e'];
        vars := vars w |}).
Proof.
  intros path Hlist Htm Hstat.
  unfold Ls.listPathSpec, catch_, then_, fs_call. fold path.
  rewrite Hlist. simpl. rewrite Htm. simpl. rewrite Hstat. reflexivity.
Qed.

End LsFacts.

Section LsClaims.
Import Js.
Context {Path FS : Type}.
Context `{DateHost} `{ModeHost} `{PathHost Path} `{FileSystemManager Path FS}.

(** C8. When [list] succeeds, one text is written: the header, which ends
    in empty. for no entry, in 1 entry: for one and in N entries: for N
    above one, a line break, and one line for each entry, none for an empty
    directory. *)
Theorem ls_directory_header (cx : ExecuteContext) (pathSpec : string)
    (w : World Path FS unit) (lr : gmap string StatResult) (fs' : FS) :
  let path := Path_abs (getPwd cx) pathSpec in
  let start := "Listing of " +:+ quote (path_spec path) +:+ ", " in
  fsm_list path (fs w) = (Ok lr, fs') →
  ∃ (text : string) (lines : list string),
    Ls.listPathSpec cx pathSpec w =
      (Fulfilled tt,
       {| fs := fs'; trace := trace w ++ [Fs (CList path); Write text];
          vars := vars w |}) ∧
    mapM (Ls.entry_text lr (Ls.longest_of (Ls.sorted_names lr)))
      (Ls.sorted_names lr) = Some lines ∧
    length lines = size lr ∧
    (size lr = 0 → text = start +:+ "empty." +:+ nl) ∧
    (size lr = 1 →
       ∃ line, lines = [line] ∧ text = start +:+ "1 entry:" +:+ nl +:+ line) ∧
    (1 < size lr →
       text = start +:+ pretty (size lr) +:+ " entries:" +:+ nl +:+
              Ls.concat_strings lines).
Proof.
  intros path start Hlist.
  destruct (listing_text_defined path lr) as (lines & Hlines & Hlen & Htext).
  eexists _, lines. split_and!.
  - rewrite (listPathSpec_dir cx pathSpec w lr fs' _ Hlist Htext).
    by rewrite <-app_assoc.
  - done.
  - done.
  - intros Hz. rewrite Hz in Hlen. destruct lines; [|done].
    rewrite Hz. unfold start. simpl Ls.count_text. simpl Ls.concat_strings.
    by rewrite ?string_app_assoc, string_app_empty_r.
  - intros H1'. rewrite H1' in Hlen.
    destruct lines as [|line [|??]]; [done| |done].
    exists line. split; [done|]. rewrite H1'. unfold start.
    simpl Ls.count_text. simpl Ls.concat_strings.
    by rewrite ?string_app_assoc, string_app_empty_r.
  - intros Hgt. unfold start.
    destruct (size lr) as [|[|n]]; [lia..|].
    simpl Ls.count_text. by rewrite ?string_app_assoc.
Qed.

(** C9, as amended. For a path that is not a directory the line written is
    the base name, two spaces, the formatted stat and a line break.  The
    line of the same entry in a directory listing has a marker character,
    the padding and three spaces between the name and the formatted stat,
    so the two never coincide. *)
Theorem ls_file_line (cx : ExecuteContext) (pathSpec : string)
    (w : World Path FS unit) (e : Failure) (fs1 fs2 : FS) (stat : StatResult) :
  let path := Path_abs (getPwd cx) pathSpec in
  fsm_list path (fs w) = (Fail e, fs1) →
  test TypeMismatch e = true →
  fsm_stat path fs1 = (Ok stat, fs2) →
  Ls.listPathSpec cx pathSpec w =
    (Fulfilled tt,
     {| fs := fs2;
        trace := trace w ++
          [Fs (CList path); Fs (CStat path);
           Write (getBaseName path +:+ "  " +:+ formatStat stat +:+ nl)];
        vars := vars w |}) ∧
  ∀ (lr : gmap string StatResult) (longest : nat) (line : string),
    lr !! getBaseName path = Some stat →
    Ls.entry_text lr longest (getBaseName path) = Some line →
    (∃ marker : string,
       String.length marker = 1 ∧
       line = getBaseName path +:+ marker +:+
              spaces (longest - String.length (getBaseName path)) +:+
              "   " +:+ formatStat stat +:+ nl) ∧
    line ≠ getBaseName path +:+ "  " +:+ formatStat stat +:+ nl.
Proof.
  intros path Hlist Htm Hstat. split.
  - rewrite (listPathSpec_file cx pathSpec w e fs1 fs2 stat Hlist Htm Hstat).
    unfold Ls.single_text. fold path. by rewrite <-!app_assoc.
  - intros lr longest line Hlr Hline.
    unfold Ls.entry_text in Hline. rewrite Hlr in Hline.
    unfold mbind, option_bind in Hline. injection Hline as <-.
    split.
    + eexists. split; [|reflexivity].
      by destruct (truthy (bit_and (mode stat) Mode_D)).
    + intros Heq. apply (f_equal String.length) in Heq.
      rewrite !string_length_app, spaces_length in Heq.
      destruct (truthy (bit_and (mode stat) Mode_D)); simpl in Heq; lia.
Qed.

(** After a failure that is not a type mismatch, with a [closeError] that
    returns normally, [listNext] goes on with the targets that are left. *)
Lemma listNext_goes_on (cx : ExecuteContext) (pathSpec : string)
    (rest : list string) (w : World Path FS unit) (e : Failure) (fs1 : FS) :
  let path := Path_abs (getPwd cx) pathSpec in
  closeErrorResult cx = ReturnsUndefined →
  fsm_list path (fs w) = (Fail e, fs1) →
  test TypeMismatch e = false →
  Ls.listNext cx (pathSpec :: rest) w =
    Ls.listNext cx rest
      {| fs := fs1; trace := trace w ++ [Fs (CList path); CloseError e];
         vars := vars w |}.
Proof.
  intros path Hret Hlist Htm. simpl. unfold then_ at 1.
  rewrite (listPathSpec_list_fails cx pathSpec w e fs1 Hlist Htm), Hret.
  fold path. by rewrite <-app_assoc.
Qed.

(** With a [closeError] that hands back a rejected promise the chain ends at
    the failure: nothing is done for the targets that are left. *)
Lemma listNext_stops_if_rejected (cx : ExecuteContext) (pathSpec : string)
    (rest : list string) (w : World Path FS unit) (e : Failure) (fs1 : FS) :
  let path := Path_abs (getPwd cx) pathSpec in
  closeErrorResult cx = ReturnsRejected →
  fsm_list path (fs w) = (Fail e, fs1) →
  test TypeMismatch e = false →
  Ls.listNext cx (pathSpec :: rest) w =
    (Rejected e,
     {| fs := fs1; trace := trace w ++ [Fs (CList path); CloseError e];
        vars := vars w |}).
Proof.
  intros path Hret Hlist Htm. simpl. unfold then_ at 1.
  rewrite (listPathSpec_list_fails cx pathSpec w e fs1 Hlist Htm), Hret.
  fold path. by rewrite <-app_assoc.
Qed.

(** With a [closeError] that returns normally every target is fulfilled. *)
Lemma listPathSpec_fulfilled (cx : ExecuteContext) (pathSpec : string)
    (w : World Path FS unit) :
  closeErrorResult cx = ReturnsUndefined →
  ∃ fs' evs,
    Ls.listPathSpec cx pathSpec w =
      (Fulfilled tt, {| fs := fs'; trace := trace w ++ evs; vars := vars w |}).
Proof.
  intros Hret. set (path := Path_abs (getPwd cx) pathSpec).
  destruct (fsm_list path (fs w)) as [[lr|e] fs1] eqn:Hlist.
  - destruct (listing_text_defined path lr) as (lines & _ & _ & Htext).
    rewrite (listPathSpec_dir cx pathSpec w lr fs1 _ Hlist Htext).
    eexists _, _. by rewrite <-app_assoc.
  - destruct (test TypeMismatch e) eqn:Htm.
    + destruct (fsm_stat path fs1) as [[stat|e'] fs2] eqn:Hstat.
      * rewrite (listPathSpec_file cx pathSpec w e fs1 fs2 stat Hlist Htm Hstat).
        eexists _, _. by rewrite <-!app_assoc.
      * rewrite (listPathSpec_stat_fails cx pathSpec w e e' fs1 fs2 Hlist Htm Hstat).
        rewrite Hret. eexists _, _. by rewrite <-!app_assoc.
    + rewrite (listPathSpec_list_fails cx pathSpec w e fs1 Hlist Htm).
      rewrite Hret. eexists _, _. by rewrite <-!app_assoc.
Qed.

(** So [ls] then always ends by calling [closeOk], whatever failed before. *)
Lemma listNext_ends_with_closeOk (cx : ExecuteContext) (pathList : list string) :
  closeErrorResult cx = ReturnsUndefined →
  ∀ w : World Path FS unit,
    ∃ fs' evs,
      Ls.listNext cx pathList w =
        (Fulfilled tt,
         {| fs := fs'; trace := trace w ++ evs ++ [CloseOk]; vars := vars w |}).
Proof.
  intros Hret. induction pathList as [|pathSpec rest IH]; intros w.
  - exists (fs w), []. reflexivity.
  - destruct (listPathSpec_fulfilled cx pathSpec w Hret) as (fs1 & evs1 & E1).
    simpl. unfold then_ at 1. rewrite E1.
    destruct (IH {| fs := fs1; trace := trace w ++ evs1; vars := vars w |})
      as (fs2 & evs2 & E2).
    rewrite E2. exists fs2, (evs1 ++ evs2). simpl. by rewrite <-!app_assoc.
Qed.

End LsClaims.

(** ** ls on the sample host *)

Section LsSample.
Import Js Sample.



(** C9, the claim as stated fails: the line for the file notes has two
    spaces after the name when the file is the target, and four when its
    directory is. *)
Lemma ls_file_line_is_not_the_entry_line :
  let rest := formatStat notes_stat +:+ nl in
  run (Ls.main (cx_of ["/home/notes"] "/")) disk tt =
    [Ready;
     Fs (CList (abs "/" "/home/notes"));
     Fs (CStat (abs "/" "/home/notes"));
     Write ("notes  " +:+ rest);
     CloseOk] ∧
  run (Ls.main (cx_of ["/home"] "/")) disk tt =
    [Ready;
     Fs (CList (abs "/" "/home"));
     Write ("Listing of " +:+ quote "/home" +:+ ", 1 entry:" +:+ nl +:+
            "notes    " +:+ rest);
     CloseOk] ∧
  "notes  " +:+ rest ≠ "notes    " +:+ rest.
Proof.
  split_and!; [vm_compute; reflexivity..|].
  vm_compute. discriminate.
Qed.

Lemma ls_directory_header_witness :
  ∃ text : string,
    Ls.listPathSpec (cx_of [] "/") "/tmp" {| fs := disk; trace := []; vars := tt |} =
      (Fulfilled tt,
       {| fs := disk;
          trace := [Fs (CList (Path_abs "/" "/tmp")); Write text];
          vars := tt |}) ∧
    text = "Listing of " +:+ quote "/tmp" +:+ ", empty." +:+ nl.
Proof.
  assert (Hlist : fsm_list (Path_abs "/" "/tmp") disk =
                  (Ok (∅ : gmap string StatResult), disk))
    by (vm_compute; reflexivity).
  destruct (ls_directory_header (cx_of [] "/") "/tmp"
              {| fs := disk; trace := []; vars := tt |} ∅ disk Hlist)
    as (text & lines & E & _ & _ & Hz & _).
  exists text. split; [exact E|]. apply Hz. reflexivity.
Defined.

Lemma ls_file_line_witness :
  Ls.listPathSpec (cx_of [] "/") "/home/notes"
      {| fs := disk; trace := []; vars := tt |} =
    (Fulfilled tt,
     {| fs := disk;
        trace := [Fs (CList (Path_abs "/" "/home/notes"));
                  Fs (CStat (Path_abs "/" "/home/notes"));
                  Write ("notes" +:+ "  " +:+ formatStat notes_stat +:+ nl)];
        vars := tt |}).
Proof.
  assert (Hlist : fsm_list (Path_abs "/" "/home/notes") disk =
                  (Fail (A:=gmap string StatResult)
                     (AxiomError TypeMismatch "dir"), disk))
    by (vm_compute; reflexivity).
  assert (Hstat : fsm_stat (Path_abs "/" "/home/notes") disk = (Ok notes_stat, disk))
    by (vm_compute; reflexivity).
  exact (proj1 (ls_file_line (cx_of [] "/") "/home/notes"
                  {| fs := disk; trace := []; vars := tt |}
                  (AxiomError TypeMismatch "dir") disk disk notes_stat
                  Hlist eq_refl Hstat)).
Defined.

End LsSample.

(** ** mkdir *)

Section MkdirFacts.
Context {Path FS : Type}.
Context `{PathHost Path} `{FileSystemManager Path FS} `{ErrorHost}.

Lemma mkdir_steps_calls (cx : ExecuteContext) (targets : list string) (fs0 : FS) :
  fs_calls (fst (fst (mkdir_steps cx targets fs0))) =
    map (fun pathSpec => Fs (CMkdir (Path_abs (getPwd cx) pathSpec))) targets.
Proof.
  revert fs0. induction targets as [|pathSpec rest IH]; intros fs0; [done|].
  simpl. destruct (fsm_mkdir _ fs0) as [r fs1].
  specialize (IH fs1). destruct (mkdir_steps cx rest fs1) as [[evs failed] fs2].
  simpl in IH. destruct r; simpl; unfold fs_calls in *; simpl;
    rewrite ?filter_cons; simpl; by rewrite <-IH.
Qed.

Lemma mkdir_steps_closes (cx : ExecuteContext) (targets : list string) (fs0 : FS) :
  closes (fst (fst (mkdir_steps cx targets fs0))) = [].
Proof.
  revert fs0. induction targets as [|pathSpec rest IH]; intros fs0; [done|].
  simpl. destruct (fsm_mkdir _ fs0) as [r fs1].
  specialize (IH fs1). destruct (mkdir_steps cx rest fs1) as [[evs failed] fs2].
  simpl in IH. by destruct r.
Qed.

Lemma mkdir_steps_failed (cx : ExecuteContext) (targets : list string) (fs0 : FS) :
  snd (fst (mkdir_steps cx targets fs0)) = true ↔ some_mkdir_fails cx targets fs0.
Proof.
  revert fs0. induction targets as [|pathSpec rest IH]; intros fs0; [done|].
  simpl. destruct (fsm_mkdir _ fs0) as [r fs1]. simpl.
  specialize (IH fs1). destruct (mkdir_steps cx rest fs1) as [[evs failed] fs2].
  simpl in IH. destruct r as [u|e]; simpl.
  - rewrite IH. split; [by right|]. by intros [[e He]|].
  - split; [|done]. intros _. left. by exists e.
Qed.

(** With fuel for every target, [mkdirNext] is fulfilled after these steps
    and leaves the list empty. *)
Lemma mkdirNext_steps (cx : ExecuteContext) (l : list string) :
  ∀ (fuel : nat) (w : World Path FS Mkdir.Vars),
    Mkdir.targets (vars w) = l →
    length l ≤ fuel →
    Mkdir.mkdirNext cx fuel w =
      (Fulfilled tt,
       {| fs := snd (mkdir_steps cx l (fs w));
          trace := trace w ++ fst (fst (mkdir_steps cx l (fs w)));
          vars := {| Mkdir.targets := [];
                     Mkdir.errors :=
                       Mkdir.errors (vars w) ||
                       snd (fst (mkdir_steps cx l (fs w))) |} |}).
Proof.
  induction l as [|pathSpec rest IH]; intros fuel w Hl Hfuel.
  - destruct w as [fs0 tr [ts errs]]. simpl in Hl. subst ts.
    destruct fuel; simpl; by rewrite app_nil_r, orb_false_r.
  - destruct fuel as [|fuel]; [simpl in Hfuel; lia|].
    simpl in Hfuel. simpl Mkdir.mkdirNext. rewrite Hl.
    unfold then_ at 1. unfold set_vars at 1. simpl.
    unfold catch_ at 1. unfold then_ at 1. unfold fs_call at 1. simpl.
    destruct (fsm_mkdir (Path_abs (getPwd cx) pathSpec) (fs w)) as [[u|e] fs1].
    + rewrite IH by (simpl; first [done|lia]). simpl.
      destruct (mkdir_steps cx rest fs1) as [[evs failed] fs2]. simpl.
      by rewrite <-app_assoc.
    + unfold then_ at 1. unfold then_ at 1. unfold get_vars, set_vars. simpl.
      unfold then_ at 1. unfold stdout_write, emit. simpl.
      rewrite IH by (simpl; first [done|lia]). simpl.
      destruct (mkdir_steps cx rest fs1) as [[evs failed] fs2]. simpl.
      by rewrite <-!app_assoc, orb_true_r.
Qed.

(** The run of [main] when it gets to the targets. *)
Lemma mkdir_main_run (cx : ExecuteContext) (fuel : nat)
    (l : list string) (fs0 : FS) (v0 : Mkdir.Vars) :
  arg_list cx = Some l →
  l ≠ [] →
  arg_help cx = false →
  length l ≤ fuel →
  ∃ (evs : list (Event Path)) (failed : bool) (fs2 : FS),
    mkdir_steps cx l fs0 = (evs, failed, fs2) ∧
    run (Mkdir.main fuel cx) fs0 v0 =
      Ready :: evs ++ [if failed then CloseError Mkdir.summary else CloseOk] ∧
    run_fs (Mkdir.main fuel cx) fs0 v0 = fs2 ∧
    fs_calls evs =
      map (fun pathSpec => Fs (CMkdir (Path_abs (getPwd cx) pathSpec))) l ∧
    closes evs = [] ∧
    (failed = true ↔ some_mkdir_fails cx l fs0).
Proof.
  intros Hargs Hne Hhelp Hfuel.
  destruct (mkdir_steps cx l fs0) as [[evs failed] fs2] eqn:Hsteps.
  exists evs, failed, fs2.
  pose proof (mkdir_steps_calls cx l fs0) as Hcalls.
  pose proof (mkdir_steps_closes cx l fs0) as Hcloses.
  pose proof (mkdir_steps_failed cx l fs0) as Hfailed.
  rewrite Hsteps in Hcalls, Hcloses, Hfailed. simpl in Hcalls, Hcloses, Hfailed.
  assert (Hmain :
    snd (Mkdir.main fuel cx {| fs := fs0; trace := []; vars := v0 |}) =
      {| fs := fs2;
         trace := Ready :: evs ++
                  [if failed then CloseError Mkdir.summary else CloseOk];
         vars := {| Mkdir.targets := []; Mkdir.errors := failed |} |}).
  { unfold Mkdir.main, getArg_list. rewrite Hargs, Hhelp. simpl default.
    destruct l as [|t l']; [done|]. simpl length. simpl orb. cbv iota.
    unfold then_ at 1. unfold ready, emit at 1. simpl.
    unfold then_ at 1. unfold set_vars at 1. simpl.
    unfold then_ at 1.
    rewrite (mkdirNext_steps cx (t :: l')) by done.
    simpl fs. simpl trace. simpl vars. rewrite Hsteps. simpl.
    unfold then_, get_vars. simpl.
    destruct failed; reflexivity. }
  unfold run, run_fs. rewrite Hmain. by split_and!.
Qed.

(** C5, as amended. Without the help flag and with at least one target,
    [mkdir] calls the file system once for each target in the order of the
    arguments, writes a line naming the path after each failure and goes on,
    and closes once at the end: with the summary error when a target failed,
    with Ok when none did. *)
Theorem mkdir_processes_every_target (cx : ExecuteContext) (fuel : nat)
    (l : list string) (fs0 : FS) (v0 : Mkdir.Vars) :
  arg_list cx = Some l →
  l ≠ [] →
  arg_help cx = false →
  length l ≤ fuel →
  ∃ (evs : list (Event Path)) (failed : bool) (fs2 : FS),
    mkdir_steps cx l fs0 = (evs, failed, fs2) ∧
    run (Mkdir.main fuel cx) fs0 v0 =
      Ready :: evs ++ [if failed then CloseError Mkdir.summary else CloseOk] ∧
    run_fs (Mkdir.main fuel cx) fs0 v0 = fs2 ∧
    fs_calls evs =
      map (fun pathSpec => Fs (CMkdir (Path_abs (getPwd cx) pathSpec))) l ∧
    closes evs = [] ∧
    (failed = true ↔ some_mkdir_fails cx l fs0).
Proof. apply mkdir_main_run. Qed.

End MkdirFacts.

(** ** mv *)

Section MvFacts.
Context {Path FS : Type}.
Context `{PathHost Path} `{FileSystemManager Path FS}.

Lemma mv_usage (cx : ExecuteContext) (fs0 : FS) :
  length (getArg_list cx []) ≠ 2 ∨ arg_help cx = true →
  Mv.main cx {| fs := fs0; trace := []; vars := tt |} =
    (Fulfilled tt,
     {| fs := fs0; trace := [Ready; Write Mv.usage; CloseOk]; vars := tt |}).
Proof.
  intros Hcond. unfold Mv.main.
  assert (Hif : negb (length (getArg_list cx []) =? 2) || arg_help cx = true).
  { destruct Hcond as [Hlen|Hh]; [|rewrite Hh; apply orb_true_r].
    apply orb_true_iff. left. apply negb_true_iff. by apply Nat.eqb_neq. }
  rewrite Hif. reflexivity.
Qed.

(** The two runs of [main]. *)
Lemma mv_main_run (cx : ExecuteContext) (fs0 : FS) :
  (length (getArg_list cx []) ≠ 2 ∨ arg_help cx = true →
     run (Mv.main cx) fs0 tt = [Ready; Write Mv.usage; CloseOk] ∧
     run_fs (Mv.main cx) fs0 tt = fs0) ∧
  (∀ a b : string,
     getArg_list cx [] = [a; b] →
     arg_help cx = false →
     let src := Path_abs (getPwd cx) a in
     let dst := Path_abs (getPwd cx) b in
     run (Mv.main cx) fs0 tt =
       [Ready; Fs (CMove src dst);
        match fst (fsm_move src dst fs0) with
        | Ok _ => CloseOk
        | Fail err => CloseError err
        end] ∧
     run_fs (Mv.main cx) fs0 tt = snd (fsm_move src dst fs0)).
Proof.
  split.
  - intros Hcond. unfold run, run_fs. by rewrite (mv_usage cx fs0 Hcond).
  - intros a b Hargs Hhelp src dst. unfold run, run_fs, Mv.main.
    rewrite Hargs, Hhelp. simpl. fold src. fold dst.
    unfold then_ at 1. unfold ready, emit at 1. simpl.
    unfold catch_, then_, fs_call. simpl.
    destruct (fsm_move src dst fs0) as [[u|err] fs1]; simpl; done.
Qed.

(** C6, as amended. With the help flag, or with a number of arguments other
    than two, [mv] writes the usage text and closes with Ok without a call
    on the file system.  With two arguments and no help flag it calls [move]
    once, on the two paths resolved against the working directory, and
    closes with Ok when the move succeeds and with the very error of the
    move when it fails. *)
Theorem mv_moves_once (cx : ExecuteContext) (fs0 : FS) :
  (length (getArg_list cx []) ≠ 2 ∨ arg_help cx = true →
     run (Mv.main cx) fs0 tt = [Ready; Write Mv.usage; CloseOk] ∧
     run_fs (Mv.main cx) fs0 tt = fs0) ∧
  (∀ a b : string,
     getArg_list cx [] = [a; b] →
     arg_help cx = false →
     let src := Path_abs (getPwd cx) a in
     let dst := Path_abs (getPwd cx) b in
     run (Mv.main cx) fs0 tt =
       [Ready; Fs (CMove src dst);
        match fst (fsm_move src dst fs0) with
        | Ok _ => CloseOk
        | Fail err => CloseError err
        end] ∧
     run_fs (Mv.main cx) fs0 tt = snd (fsm_move src dst fs0)).
Proof. apply mv_main_run. Qed.

End MvFacts.

(** ** mkdir and mv on the sample host *)

Section MkdirMvSample.
Import Js Sample.

(** C5, the claim as stated fails: with the help flag the target is not
    processed, the usage text is written instead. *)
Lemma mkdir_help_skips_targets :
  arg_list (cx_help ["/tmp/a"] "/") = Some ["/tmp/a"] ∧
  ∀ fuel : nat,
    run (Mkdir.main fuel (cx_help ["/tmp/a"] "/")) disk Mkdir.vars0 =
      [Ready; Write Mkdir.usage; CloseOk] ∧
    run_fs (Mkdir.main fuel (cx_help ["/tmp/a"] "/")) disk Mkdir.vars0 = disk.
Proof. split; [done|]. intros fuel. split; reflexivity. Qed.

(** C6, the claim as stated fails: with two arguments and the help flag
    [move] is not called. *)
Lemma mv_help_does_not_move :
  length (getArg_list (cx_help ["/home/notes"; "/tmp/n"] "/") []) = 2 ∧
  run (Mv.main (cx_help ["/home/notes"; "/tmp/n"] "/")) disk tt =
    [Ready; Write Mv.usage; CloseOk] ∧
  run_fs (Mv.main (cx_help ["/home/notes"; "/tmp/n"] "/")) disk tt = disk.
Proof. split_and!; reflexivity. Qed.

(** The example of the description: of a, home and c the second exists. *)
Lemma mkdir_processes_every_target_witness :
  ∃ evs failed fs2,
    mkdir_steps (cx_of ["a"; "home"; "c"] "/") ["a"; "home"; "c"] disk =
      (evs, failed, fs2) ∧
    run (Mkdir.main 3 (cx_of ["a"; "home"; "c"] "/")) disk Mkdir.vars0 =
      Ready :: evs ++ [if failed then CloseError Mkdir.summary else CloseOk] ∧
    evs = [Fs (CMkdir (abs "/" "a"));
           Fs (CMkdir (abs "/" "home"));
           Write (Mkdir.error_line (abs "/" "home")
                    (AxiomError Duplicate "directory-name"));
           Fs (CMkdir (abs "/" "c"))] ∧
    failed = true.
Proof.
  destruct (mkdir_processes_every_target
              (cx_of ["a"; "home"; "c"] "/") 3 ["a"; "home"; "c"] disk Mkdir.vars0
              eq_refl ltac:(discriminate) eq_refl (le_n 3))
    as (evs & failed & fs2 & Hsteps & Hrun & _).
  exists evs, failed, fs2. split_and!; [exact Hsteps|exact Hrun| |].
  - change evs with (fst (fst (evs, failed, fs2))). rewrite <-Hsteps.
    vm_compute. reflexivity.
  - change failed with (snd (fst (evs, failed, fs2))). rewrite <-Hsteps.
    vm_compute. reflexivity.
Defined.

Lemma mv_moves_once_witness :
  run (Mv.main (cx_of ["/home/notes"; "/tmp/n"] "/")) disk tt =
    [Ready; Fs (CMove (abs "/" "/home/notes") (abs "/" "/tmp/n")); CloseOk] ∧
  run (Mv.main (cx_of ["/home/none"; "/tmp/n"] "/")) disk tt =
    [Ready; Fs (CMove (abs "/" "/home/none") (abs "/" "/tmp/n"));
     CloseError (AxiomError NotFound "path")] ∧
  run (Mv.main (cx_of ["/home/notes"] "/")) disk tt =
    [Ready; Write Mv.usage; CloseOk].
Proof.
  split_and!.
  - rewrite (proj1 (proj2 (mv_moves_once (cx_of ["/home/notes"; "/tmp/n"] "/") disk)
                      "/home/notes" "/tmp/n" eq_refl eq_refl)).
    vm_compute. reflexivity.
  - rewrite (proj1 (proj2 (mv_moves_once (cx_of ["/home/none"; "/tmp/n"] "/") disk)
                      "/home/none" "/tmp/n" eq_refl eq_refl)).
    vm_compute. reflexivity.
  - apply (mv_moves_once (cx_of ["/home/notes"] "/") disk). left. simpl. lia.
Defined.

End MkdirMvSample.

(** ** import: the cancellation *)

Section ImportFacts.
Import ImportCommand.
Context {Path FS : Type}.
Context `{PathHost Path} `{FileSystemManager Path FS}.

Lemma import_main_opens (cx : ExecuteContext) (fs0 : FS) :
  length (getArg_list cx []) ≤ 1 →
  arg_help cx = false →
  main cx {| fs := fs0; trace := []; vars := vars0 |} =
    (Fulfilled tt,
     {| fs := fs0; trace := opening;
        vars := waiting
                  (Some (Path_abs (getPwd cx)
                           (default "." (getArg_list cx [] !! 0))))
                  (arg_file cx) 0 |}).
Proof.
  intros Hlen Hhelp. unfold main. rewrite Hhelp.
  assert (Hlt : (1 <? length (getArg_list cx [])) = false)
    by (apply Nat.ltb_ge; lia).
  rewrite Hlt. reflexivity.
Qed.

Lemma steps_app (fuel : nat) (cx : ExecuteContext) (a b : list Step)
    (w : World Path FS (Vars Path)) :
  steps fuel cx (a ++ b) w = steps fuel cx b (snd (steps fuel cx a w)).
Proof.
  revert w. induction a as [|s a IH]; intros w; [done|].
  cbn [steps app]. unfold then_ at 1. unfold stmt at 1. cbn [fst snd].
  unfold then_ at 1. unfold stmt at 1. cbn [fst snd]. apply IH.
Qed.

Lemma focus_adds_timers (fuel : nat) (cx : ExecuteContext) (k : nat) :
  ∀ (fs0 : FS) (tr : list (Event Path)) d single n,
    steps fuel cx (replicate k FocusDummy)
      {| fs := fs0; trace := tr; vars := waiting d single n |} =
      (Fulfilled tt, {| fs := fs0; trace := tr; vars := waiting d single (k + n) |}).
Proof.
  induction k as [|k IH]; intros fs0 tr d single n; [done|].
  simpl replicate. simpl steps. unfold then_ at 1. unfold stmt at 1.
  change (snd (step fuel cx FocusDummy
                 {| fs := fs0; trace := tr; vars := waiting d single n |}))
    with {| fs := fs0; trace := tr; vars := waiting d single (S n) |}.
  rewrite IH. by rewrite Nat.add_succ_r.
Qed.

Lemma timer_cancels (fuel : nat) (cx : ExecuteContext)
    (fs0 : FS) (tr : list (Event Path)) d single n :
  snd (step fuel cx TimerFires
         {| fs := fs0; trace := tr; vars := waiting d single (S n) |}) =
    {| fs := fs0; trace := tr ++ cancelling; vars := cancelled d single n |}.
Proof. simpl. unfold cancelling. by rewrite <-!app_assoc. Qed.

(** Once cancelled, focus events and timers close nothing more. *)
Lemma cancelled_stays (fuel : nat) (cx : ExecuteContext) (later : list Step) :
  Forall (fun s => ∀ files, s ≠ Change files) later →
  ∀ (fs0 : FS) (tr : list (Event Path)) d single n,
    ∃ post m,
      steps fuel cx later
        {| fs := fs0; trace := tr; vars := cancelled d single n |} =
        (Fulfilled tt,
         {| fs := fs0; trace := tr ++ post; vars := cancelled d single m |}) ∧
      closes post = [].
Proof.
  induction 1 as [|s later Hs _ IH]; intros fs0 tr d single n.
  - exists [], n. by rewrite app_nil_r.
  - destruct s as [| |files]; [| |by destruct (Hs files)].
    + destruct (IH fs0 tr d single n) as (post & m & E & Hc).
      exists post, m. split; [|done]. simpl steps. unfold then_ at 1.
      unfold stmt at 1. exact E.
    + destruct n as [|n].
      * destruct (IH fs0 tr d single 0) as (post & m & E & Hc).
        exists post, m. split; [|done]. simpl steps. unfold then_ at 1.
        unfold stmt at 1. exact E.
      * destruct (IH fs0 (tr ++ [Dom (RemoveChild FileInput)]) d single n)
          as (post & m & E & Hc).
        exists (Dom (RemoveChild FileInput) :: post), m.
        split; [|done]. simpl steps. unfold then_ at 1. unfold stmt at 1.
        change (snd (step fuel cx TimerFires
                       {| fs := fs0; trace := tr;
                          vars := cancelled d single (S n) |}))
          with {| fs := fs0; trace := tr ++ [Dom (RemoveChild FileInput)];
                  vars := cancelled d single n |}.
        rewrite E. by rewrite <-app_assoc.
Qed.

(** C7. The chooser is open, the decoy gets the focus once or more, no
    change event comes, and a timer of [handleFileCancel_] runs: the two
    inputs are removed from the document, the focus goes back, and then the
    context is closed with the error Missing.  Whatever focus events and
    timers follow, it is not closed again. *)
Theorem import_cancel_closes_with_Missing (cx : ExecuteContext) (fuel : nat)
    (fs0 : FS) (k : nat) (later : list Step) :
  length (getArg_list cx []) ≤ 1 →
  arg_help cx = false →
  Forall (fun s => ∀ files, s ≠ Change files) later →
  let ss := replicate (S k) FocusDummy ++ TimerFires :: later in
  ∃ post : list (Event Path),
    run (session fuel cx ss) fs0 vars0 =
      [Ready; Dom (AppendChild DummyFocusInput); Dom (Focus DummyFocusInput);
       Dom (AppendChild FileInput); Dom (Click FileInput)] ++
      [Dom (RemoveChild FileInput); Dom (RemoveChild DummyFocusInput);
       Dom (Focus OriginalFocus);
       CloseError (AxiomError Missing "file selection")] ++ post ∧
    closes post = [] ∧
    closes (run (session fuel cx ss) fs0 vars0) =
      [CloseError (AxiomError Missing "file selection")] ∧
    body (run_vars (session fuel cx ss) fs0 vars0) = [] ∧
    run_fs (session fuel cx ss) fs0 vars0 = fs0.
Proof.
  intros Hlen Hhelp Hlater ss.
  set (d := Some (Path_abs (getPwd cx) (default "." (getArg_list cx [] !! 0)))).
  destruct (cancelled_stays fuel cx later Hlater fs0 (opening ++ cancelling)
              d (arg_file cx) k) as (post & m & Epost & Hc).
  assert (Hrun :
    snd (session fuel cx ss {| fs := fs0; trace := []; vars := vars0 |}) =
      {| fs := fs0; trace := (opening ++ cancelling) ++ post;
         vars := cancelled d (arg_file cx) m |}).
  { unfold session, ss. unfold then_ at 1. unfold stmt at 1.
    rewrite (import_main_opens cx fs0 Hlen Hhelp). cbn [snd]. fold d.
    rewrite steps_app, focus_adds_timers. cbn [snd].
    rewrite Nat.add_0_r.
    change (TimerFires :: later) with ([TimerFires] ++ later).
    rewrite steps_app.
    replace (snd (steps fuel cx [TimerFires]
                    {| fs := fs0; trace := opening;
                       vars := waiting d (arg_file cx) (S k) |}))
      with {| fs := fs0; trace := opening (Path:=Path) ++ cancelling;
              vars := cancelled d (arg_file cx) k |}.
    - by rewrite Epost.
    - cbn [steps]. unfold then_ at 1. unfold stmt at 1. unfold resolve.
      cbn [snd]. by rewrite timer_cancels. }
  exists post. unfold run, run_vars, run_fs. rewrite Hrun. simpl.
  split_and!; try done.
  rewrite !closes_cons. simpl. by rewrite Hc.
Qed.

End ImportFacts.

(** ** import on the sample host *)

Section ImportSample.
Import Js Sample ImportCommand.

Lemma import_cancel_closes_with_Missing_witness :
  closes (run (session 0 (cx_of ["/tmp"] "/") [FocusDummy; TimerFires])
            disk vars0) =
    [CloseError (AxiomError Missing "file selection")].
Proof.
  destruct (import_cancel_closes_with_Missing (cx_of ["/tmp"] "/") 0 disk 0 []
              (le_n 1) eq_refl (List.Forall_nil _))
    as (post & _ & _ & Hc & _).
  exact Hc.
Defined.

(** The check comes 100 ms after the focus: a change event that arrives in
    between makes the invocation a selection, here of no file. *)
Example import_change_before_the_timer :
  run (session 0 (cx_of ["/tmp"] "/") [FocusDummy; Change []; TimerFires])
    disk vars0 =
    opening ++
    [Dom (RemoveChild FileInput); Dom (RemoveChild DummyFocusInput);
     Dom (Focus OriginalFocus); CloseOk].
Proof. vm_compute. reflexivity. Qed.

(** A file chosen into a directory that does not exist yet: the parents are
    made, the file is written, the inputs are removed and the context is
    closed with Ok. *)
Example import_one_file :
  closes
    (run (session 5 (cx_of ["/tmp"] "/")
            [Change [{| name := "f.txt"; webkitRelativePath := Some "d/f.txt";
                        content := "hello" |}]])
       disk vars0) = [CloseOk].
Proof. vm_compute. reflexivity. Qed.

End ImportSample.

(** ** How often a command closes *)

Section CloseOnce.
Context {Path FS : Type}.
Context `{DateHost} `{ModeHost} `{PathHost Path} `{FileSystemManager Path FS}
  `{ErrorHost}.

(** [mv] closes exactly once. *)
Lemma mv_closes_once (cx : ExecuteContext) (fs0 : FS) :
  ∃ c : Event Path, closes (run (Mv.main cx) fs0 tt) = [c].
Proof.
  destruct (mv_main_run cx fs0) as [Husage Hmove].
  destruct (arg_help cx) eqn:Hhelp.
  - destruct Husage as [-> _]; [by right|]. by exists CloseOk.
  - destruct (getArg_list cx []) as [|a [|b [|c l]]] eqn:Hl.
    + destruct Husage as [-> _]; [left; simpl; lia|]. by exists CloseOk.
    + destruct Husage as [-> _]; [left; simpl; lia|]. by exists CloseOk.
    + destruct (Hmove a b eq_refl eq_refl) as [-> _].
      destruct (fst (fsm_move _ _ fs0)) as [u|err]; by eexists.
    + destruct Husage as [-> _]; [left; simpl; lia|]. by exists CloseOk.
Qed.

(** [mkdir] closes exactly once, given fuel for its targets. *)
Lemma mkdir_closes_once (cx : ExecuteContext) (fuel : nat) (fs0 : FS)
    (v0 : Mkdir.Vars) :
  length (getArg_list cx []) ≤ fuel →
  ∃ c : Event Path, closes (run (Mkdir.main fuel cx) fs0 v0) = [c].
Proof.
  intros Hfuel.
  destruct (bool_decide (getArg_list cx [] = []) || arg_help cx) eqn:Hcond.
  - exists CloseOk. unfold run, Mkdir.main.
    replace ((length (getArg_list cx []) =? 0) || arg_help cx) with true; [done|].
    symmetry. apply orb_true_iff. apply orb_true_iff in Hcond as [Hnil|Hh];
      [left|by right].
    apply bool_decide_eq_true in Hnil. by rewrite Hnil.
  - apply orb_false_iff in Hcond as [Hnil Hh].
    apply bool_decide_eq_false in Hnil.
    unfold getArg_list in Hnil, Hfuel.
    destruct (arg_list cx) as [l|] eqn:Hl; [|done]. simpl in Hnil, Hfuel.
    destruct (mkdir_main_run cx fuel l fs0 v0 Hl Hnil Hh Hfuel)
      as (evs & failed & fs2 & _ & -> & _ & _ & Hc & _).
    exists (if failed then CloseError Mkdir.summary else CloseOk).
    rewrite closes_cons, closes_app, Hc. simpl. by destruct failed.
Qed.

(** [ls] never leaves the context open: with a [closeError] that returns
    normally its last call is [closeOk], whatever it closed with before. *)
Lemma ls_always_calls_closeOk (cx : ExecuteContext) (fs0 : FS) :
  closeErrorResult cx = ReturnsUndefined →
  ∃ evs : list (Event Path), run (Ls.main cx) fs0 tt = evs ++ [CloseOk].
Proof.
  intros Hret. unfold run, Ls.main. unfold then_ at 1. unfold ready, emit at 1.
  cbn [fst snd fs trace vars].
  destruct (arg_help cx).
  - by exists [Ready; Write Ls.usage].
  - destruct (listNext_ends_with_closeOk cx (getArg_list cx [getPwd cx]) Hret
                {| fs := fs0; trace := [] ++ [Ready]; vars := tt |})
      as (fs' & evs & ->).
    exists ([Ready] ++ evs). cbn [snd trace]. by rewrite <-!app_assoc.
Qed.

End CloseOnce.

(** ** ls with a closeError that rejects *)

Section LsRejecting.
Context {Path FS : Type}.
Context `{DateHost} `{ModeHost} `{PathHost Path} `{FileSystemManager Path FS}.

(** A target either is written without a closing call, or ends in
    [closeError]. *)
Lemma listPathSpec_outcome (cx : ExecuteContext) (pathSpec : string)
    (w : World Path FS unit) :
  ∃ fs' evs,
    closes evs = [] ∧
    (Ls.listPathSpec cx pathSpec w =
       (Fulfilled tt, {| fs := fs'; trace := trace w ++ evs; vars := vars w |}) ∨
     ∃ e,
       Ls.listPathSpec cx pathSpec w =
         (match closeErrorResult cx with
          | ReturnsUndefined => Fulfilled tt
          | ReturnsRejected => Rejected e
          end,
          {| fs := fs'; trace := trace w ++ evs ++ [CloseError e];
             vars := vars w |})).
Proof.
  set (path := Path_abs (getPwd cx) pathSpec).
  destruct (fsm_list path (fs w)) as [[lr|e] fs1] eqn:Hlist.
  - destruct (listing_text_defined path lr) as (lines & _ & _ & Htext).
    eexists fs1, [Fs (CList path); Write _]. split; [done|]. left.
    rewrite (listPathSpec_dir cx pathSpec w lr fs1 _ Hlist Htext).
    by rewrite <-app_assoc.
  - destruct (test TypeMismatch e) eqn:Htm.
    + destruct (fsm_stat path fs1) as [[stat|e'] fs2] eqn:Hstat.
      * eexists fs2, [Fs (CList path); Fs (CStat path); Write _].
        split; [done|]. left.
        rewrite (listPathSpec_file cx pathSpec w e fs1 fs2 stat Hlist Htm Hstat).
        by rewrite <-!app_assoc.
      * exists fs2, [Fs (CList path); Fs (CStat path)]. split; [done|].
        right. exists e'.
        rewrite (listPathSpec_stat_fails cx pathSpec w e e' fs1 fs2 Hlist Htm Hstat).
        by rewrite <-!app_assoc.
    + exists fs1, [Fs (CList path)]. split; [done|]. right. exists e.
      rewrite (listPathSpec_list_fails cx pathSpec w e fs1 Hlist Htm).
      by rewrite <-!app_assoc.
Qed.

Lemma listNext_rejecting (cx : ExecuteContext) (pathList : list string) :
  closeErrorResult cx = ReturnsRejected →
  ∀ w : World Path FS unit,
    ∃ fs' evs c,
      closes evs = [] ∧ is_close c = true ∧
      snd (Ls.listNext cx pathList w) =
        {| fs := fs'; trace := trace w ++ evs ++ [c]; vars := vars w |}.
Proof.
  intros Hret. induction pathList as [|pathSpec rest IH]; intros w.
  - by exists (fs w), [], CloseOk.
  - destruct (listPathSpec_outcome cx pathSpec w) as (fs1 & evs1 & Hc1 & [E|[e E]]).
    + cbn [Ls.listNext]. unfold then_ at 1. rewrite E.
      destruct (IH {| fs := fs1; trace := trace w ++ evs1; vars := vars w |})
        as (fs2 & evs2 & c & Hc2 & Hc & E2).
      exists fs2, (evs1 ++ evs2), c. split_and!; [|done|].
      * by rewrite closes_app, Hc1, Hc2.
      * rewrite E2. cbn [trace vars]. by rewrite <-!app_assoc.
    + cbn [Ls.listNext]. unfold then_ at 1. rewrite E, Hret.
      by exists fs1, evs1, (CloseError e).
Qed.

(** With such a context [ls] closes exactly once. *)
Lemma ls_closes_once_if_rejected (cx : ExecuteContext) (fs0 : FS) :
  closeErrorResult cx = ReturnsRejected →
  ∃ c : Event Path, closes (run (Ls.main cx) fs0 tt) = [c].
Proof.
  intros Hret. unfold run, Ls.main. unfold then_ at 1. unfold ready, emit at 1.
  cbn [fst snd fs trace vars].
  destruct (arg_help cx).
  - by exists CloseOk.
  - destruct (listNext_rejecting cx (getArg_list cx [getPwd cx]) Hret
                {| fs := fs0; trace := [] ++ [Ready]; vars := tt |})
      as (fs' & evs & c & Hc & Hclose & ->).
    exists c. cbn [trace]. rewrite !closes_app, Hc. cbn [app].
    rewrite !closes_cons, Hclose. done.
Qed.

End LsRejecting.

(** * Further properties *)

(** ** formatStat: the keys *)

Lemma sort_strings_sorted (xs : list string) :
  StronglySorted String.le (sort_strings xs).
Proof. unfold sort_strings. apply StronglySorted_merge_sort; apply _. Qed.

Lemma sort_strings_perm (xs : list string) : sort_strings xs ≡ₚ xs.
Proof. unfold sort_strings. apply merge_sort_Permutation. Qed.

Lemma StronglySorted_filter_keep {A} (R : relation A) (P : A → Prop)
    `{∀ x, Decision (P x)} (l : list A) :
  StronglySorted R l → StronglySorted R (filter P l).
Proof.
  induction 1 as [|x l Hs IH Hall]; [constructor|].
  rewrite filter_cons. case_decide; [|done].
  constructor; [done|]. apply Forall_forall. intros y Hy.
  apply list_elem_of_filter in Hy as [_ Hy].
  by apply (proj1 (Forall_forall _ _) Hall).
Qed.

Section FormatStatKeys.
Import Js.
Context `{DateHost} `{ModeHost}.

(** X1. For a mode whose 32 bits differ from the executable value, the keys
    [formatStat] shows are in lexicographic order, each once, and they are
    the properties of the stat other than signature. *)
Theorem formatStat_keys_sorted_once (stat : StatResult) :
  to_int32 (mode stat) ≠ to_int32 Mode_X →
  StronglySorted String.le (formatStat_keys stat) ∧
  NoDup (formatStat_keys stat) ∧
  ∀ key : string,
    key ∈ formatStat_keys stat ↔ key ∈ stat_keys stat ∧ key ≠ "signature".
Proof.
  intros Hne. rewrite (formatStat_keys_filtered stat Hne). split_and!.
  - apply StronglySorted_filter_keep, sort_strings_sorted.
  - apply NoDup_filter. rewrite sort_strings_perm. apply NoDup_elements.
  - intros key. rewrite list_elem_of_filter, sort_strings_perm, elem_of_elements.
    tauto.
Qed.

(** X2. An entry whose mode is the executable value and that has no
    signature is shown as signature: undefined, whatever else it has. *)
Theorem formatStat_executable_without_signature (stat : StatResult) :
  mode stat = Mode_X →
  props stat !! "signature" = None →
  formatStat stat = "signature: undefined".
Proof.
  intros Hx Hnone. unfold formatStat, formatStat_ary.
  rewrite (formatStat_keys_X stat Hx).
  cbn [map join]. unfold formatStat_field, formatStat_value, stat_get.
  repeat case_decide; try discriminate. by rewrite Hnone.
Qed.

End FormatStatKeys.

Lemma formatStat_keys_sorted_once_witness :
  StronglySorted String.le (formatStat_keys Sample.notes_stat) ∧
  formatStat_keys Sample.notes_stat = ["mode"; "mtime"; "size"].
Proof.
  split.
  - apply (formatStat_keys_sorted_once Sample.notes_stat).
    vm_compute. discriminate.
  - vm_compute. reflexivity.
Defined.

Lemma formatStat_executable_without_signature_witness :
  formatStat {| mode := 1; mtime := Some 0%Z;
                props := {[ "size" := Js.VNum 3 ]} |} = "signature: undefined".
Proof.
  apply (formatStat_executable_without_signature
           {| mode := 1; mtime := Some 0%Z; props := {[ "size" := Js.VNum 3 ]} |});
    [reflexivity | vm_compute; reflexivity].
Defined.

(** ** ls: the lines of a listing *)

Section LsListing.
Import Js.
Context {Path FS : Type}.
Context `{DateHost} `{ModeHost} `{PathHost Path} `{FileSystemManager Path FS}.

Lemma fold_longest_ge_init (names : list string) (n : nat) :
  n ≤ fold_left
        (fun longest name =>
           if (longest <? String.length name)%nat then String.length name
           else longest)
        names n.
Proof.
  revert n. induction names as [|x names IH]; intros n; [done|].
  cbn [fold_left]. etrans; [|apply IH].
  destruct (Nat.ltb_spec n (String.length x)); lia.
Qed.

Lemma fold_longest_ge_elem (names : list string) (n : nat) (name : string) :
  name ∈ names →
  String.length name ≤
    fold_left
      (fun longest name =>
         if (longest <? String.length name)%nat then String.length name
         else longest)
      names n.
Proof.
  revert n. induction names as [|x names IH]; intros n Hin.
  - by apply elem_of_nil in Hin.
  - cbn [fold_left]. apply elem_of_cons in Hin as [->|Hin]; [|by apply IH].
    etrans; [|apply fold_longest_ge_init].
    destruct (Nat.ltb_spec n (String.length x)); lia.
Qed.

Lemma longest_of_ge (names : list string) (name : string) :
  name ∈ names → String.length name ≤ Ls.longest_of names.
Proof.
  intros Hin. unfold Ls.longest_of. destruct names as [|first rest].
  - by apply elem_of_nil in Hin.
  - by apply fold_longest_ge_elem.
Qed.

(** X3. The names of a listing come in lexicographic order, each entry of
    the directory once, and the text written is the header followed by the
    line of each name in that order. *)
Theorem ls_lines_in_name_order (path : Path) (lr : gmap string StatResult) :
  StronglySorted String.le (Ls.sorted_names lr) ∧
  NoDup (Ls.sorted_names lr) ∧
  (∀ name : string, name ∈ Ls.sorted_names lr ↔ is_Some (lr !! name)) ∧
  ∃ lines : list string,
    Forall2
      (fun name line =>
         Ls.entry_text lr (Ls.longest_of (Ls.sorted_names lr)) name = Some line)
      (Ls.sorted_names lr) lines ∧
    Ls.listing_text path lr =
      Some ("Listing of " +:+ quote (path_spec path) +:+ ", " +:+
            Ls.count_text (size lr) +:+ nl +:+ Ls.concat_strings lines).
Proof.
  split_and!.
  - apply sort_strings_sorted.
  - unfold Ls.sorted_names. rewrite sort_strings_perm.
    apply NoDup_fst_map_to_list.
  - intros name. split; [apply sorted_names_lookup|].
    intros [stat Hst]. rewrite (sorted_names_perm lr), list_elem_of_fmap.
    exists (name, stat). split; [done|]. by apply elem_of_map_to_list.
  - destruct (listing_text_defined path lr) as (lines & Hlines & _ & Htext).
    exists lines. split; [|done]. by apply mapM_Some.
Qed.

(** X4. In a listing the formatted stats start in the same column: the
    name, the directory marker and the padding of every line take one
    character more than the longest name. *)
Theorem ls_columns_are_aligned (lr : gmap string StatResult) (name : string) :
  let longest := Ls.longest_of (Ls.sorted_names lr) in
  name ∈ Ls.sorted_names lr →
  String.length name ≤ longest ∧
  ∃ (stat : StatResult) (lead : string),
    lr !! name = Some stat ∧
    Ls.entry_text lr longest name =
      Some (lead +:+ "   " +:+ formatStat stat +:+ nl) ∧
    String.length lead = S longest.
Proof.
  intros longest Hin.
  pose proof (longest_of_ge _ _ Hin) as Hle. fold longest in Hle.
  split; [done|].
  destruct (sorted_names_lookup lr name Hin) as [stat Hst].
  exists stat,
    (name +:+ (if truthy (bit_and (mode stat) Mode_D) then "/" else " ") +:+
     spaces (longest - String.length name)).
  split_and!; [done| |].
  - unfold Ls.entry_text. rewrite Hst. unfold mbind, option_bind.
    by rewrite ?string_app_assoc.
  - rewrite !string_length_app, spaces_length.
    destruct (truthy (bit_and (mode stat) Mode_D)); simpl; lia.
Qed.

End LsListing.

Lemma ls_columns_are_aligned_witness :
  Ls.longest_of (Ls.sorted_names mixed_listing) = 5 ∧
  (∃ lead : string,
     Ls.entry_text mixed_listing 5 "bin" =
       Some (lead +:+ "   " +:+ formatStat Sample.dir_stat +:+ Js.nl) ∧
     String.length lead = 6) ∧
  (∃ lead : string,
     Ls.entry_text mixed_listing 5 "notes" =
       Some (lead +:+ "   " +:+ formatStat Sample.notes_stat +:+ Js.nl) ∧
     String.length lead = 6) ∧
  Ls.entry_text mixed_listing 5 "bin" =
    Some ("bin/  " +:+ "   " +:+ formatStat Sample.dir_stat +:+ Js.nl) ∧
  Ls.entry_text mixed_listing 5 "notes" =
    Some ("notes " +:+ "   " +:+ formatStat Sample.notes_stat +:+ Js.nl) ∧
  Ls.entry_text mixed_listing 5 "t" =
    Some ("t     " +:+ "   " +:+ formatStat Sample.tool_stat +:+ Js.nl).
Proof.
  assert (Hl : Ls.longest_of (Ls.sorted_names mixed_listing) = 5)
    by (vm_compute; reflexivity).
  assert (Hin : ∀ name, name = "bin" ∨ name = "notes" →
                        name ∈ Ls.sorted_names mixed_listing).
  { intros name [->| ->]; vm_compute.
    - apply list_elem_of_here.
    - apply list_elem_of_further, list_elem_of_here. }
  pose proof (ls_columns_are_aligned mixed_listing "bin" (Hin _ (or_introl eq_refl)))
    as (_ & s1 & lead1 & Hs1 & Ht1 & Hlen1).
  pose proof (ls_columns_are_aligned mixed_listing "notes" (Hin _ (or_intror eq_refl)))
    as (_ & s2 & lead2 & Hs2 & Ht2 & Hlen2).
  rewrite Hl in Ht1, Ht2, Hlen1, Hlen2.
  assert (s1 = Sample.dir_stat) as ->
    by (apply (inj Some); rewrite <-Hs1; vm_compute; reflexivity).
  assert (s2 = Sample.notes_stat) as ->
    by (apply (inj Some); rewrite <-Hs2; vm_compute; reflexivity).
  split_and!;
    [exact Hl|exists lead1; by split|exists lead2; by split|..];
    vm_compute; reflexivity.
Defined.

(** ** ls: the calls on the file system *)

Lemma list_calls_app {Path} (a b : list (Event Path)) :
  list_calls (a ++ b) = list_calls a ++ list_calls b.
Proof. unfold list_calls. apply filter_app. Qed.

Section LsCalls.
Import Js.
Context {Path FS : Type}.
Context `{DateHost} `{ModeHost} `{PathHost Path} `{FileSystemManager Path FS}.

(** One target: one call of [list], no call that changes the file system,
    and a fulfilled promise unless [closeError] rejected it. *)
Lemma listPathSpec_calls (cx : ExecuteContext) (pathSpec : string)
    (w : World Path FS unit) :
  ∃ r fs' evs,
    Ls.listPathSpec cx pathSpec w =
      (r, {| fs := fs'; trace := trace w ++ evs; vars := vars w |}) ∧
    list_calls evs = [Fs (CList (Path_abs (getPwd cx) pathSpec))] ∧
    Forall (fun e => mutating e = false) evs ∧
    (r = Fulfilled tt ∨
     (∃ e, r = Rejected e) ∧ closeErrorResult cx = ReturnsRejected).
Proof.
  set (path := Path_abs (getPwd cx) pathSpec).
  destruct (fsm_list path (fs w)) as [[lr|e] fs1] eqn:Hlist.
  - destruct (listing_text_defined path lr) as (lines & _ & _ & Htext).
    eexists _, fs1, [Fs (CList path); Write _].
    rewrite (listPathSpec_dir cx pathSpec w lr fs1 _ Hlist Htext).
    split_and!; [by rewrite <-app_assoc|done|by repeat constructor|by left].
  - destruct (test TypeMismatch e) eqn:Htm.
    + destruct (fsm_stat path fs1) as [[stat|e'] fs2] eqn:Hstat.
      * eexists _, fs2, [Fs (CList path); Fs (CStat path); Write _].
        rewrite (listPathSpec_file cx pathSpec w e fs1 fs2 stat Hlist Htm Hstat).
        split_and!; [by rewrite <-!app_assoc|done|by repeat constructor|by left].
      * eexists _, fs2, [Fs (CList path); Fs (CStat path); CloseError e'].
        rewrite (listPathSpec_stat_fails cx pathSpec w e e' fs1 fs2 Hlist Htm Hstat).
        split_and!; [by rewrite <-!app_assoc|done|by repeat constructor|].
        destruct (closeErrorResult cx); [by left|right; eauto].
    + eexists _, fs1, [Fs (CList path); CloseError e].
      rewrite (listPathSpec_list_fails cx pathSpec w e fs1 Hlist Htm).
      split_and!; [by rewrite <-!app_assoc|done|by repeat constructor|].
      destruct (closeErrorResult cx); [by left|right; eauto].
Qed.

Lemma listNext_calls (cx : ExecuteContext) (pathList : list string) :
  ∀ w : World Path FS unit,
    ∃ n evs,
      trace (snd (Ls.listNext cx pathList w)) = trace w ++ evs ∧
      n ≤ length pathList ∧
      (pathList ≠ [] → 0 < n) ∧
      (closeErrorResult cx = ReturnsUndefined → n = length pathList) ∧
      list_calls evs =
        map (fun pathSpec => Fs (CList (Path_abs (getPwd cx) pathSpec)))
          (take n pathList) ∧
      Forall (fun e => mutating e = false) evs.
Proof.
  induction pathList as [|pathSpec rest IH]; intros w.
  - exists 0, [CloseOk]. split_and!; try done. by repeat constructor.
  - destruct (listPathSpec_calls cx pathSpec w)
      as (r & fs1 & evs1 & E1 & Hl1 & Hm1 & Hr).
    cbn [Ls.listNext]. unfold then_ at 1. rewrite E1.
    destruct Hr as [->|[[e ->] Hrej]].
    + destruct (IH {| fs := fs1; trace := trace w ++ evs1; vars := vars w |})
        as (n & evs2 & E2 & Hn & _ & Hall & Hl2 & Hm2).
      exists (S n), (evs1 ++ evs2). split_and!.
      * rewrite E2. cbn [trace]. by rewrite <-app_assoc.
      * simpl. lia.
      * lia.
      * intros Hret. simpl. by rewrite (Hall Hret).
      * rewrite list_calls_app, Hl1, Hl2. reflexivity.
      * by apply Forall_app.
    + exists 1, evs1. split_and!; [done|simpl; lia|lia| |by rewrite Hl1; destruct rest|done].
      intros Hret. by rewrite Hret in Hrej.
Qed.

(** X5. [ls] calls [list] on its targets in the order of the arguments,
    each resolved against the working directory and none twice, starting
    with the first; with a [closeError] that returns normally it calls it on
    every target. *)
Theorem ls_lists_targets_in_order (cx : ExecuteContext) (fs0 : FS) :
  arg_help cx = false →
  let targets := getArg_list cx [getPwd cx] in
  ∃ n : nat,
    n ≤ length targets ∧
    (targets ≠ [] → 0 < n) ∧
    (closeErrorResult cx = ReturnsUndefined → n = length targets) ∧
    list_calls (run (Ls.main cx) fs0 tt) =
      map (fun pathSpec => Fs (CList (Path_abs (getPwd cx) pathSpec)))
        (take n targets).
Proof.
  intros Hhelp targets. unfold run, Ls.main. rewrite Hhelp.
  unfold then_ at 1. unfold ready, emit at 1. cbn [fst snd fs trace vars].
  destruct (listNext_calls cx targets
              {| fs := fs0; trace := [] ++ [Ready]; vars := tt |})
    as (n & evs & E & Hn & Hpos & Hall & Hl & _).
  exists n. split_and!; [done..|].
  fold targets. rewrite E. cbn [trace]. by rewrite !list_calls_app, Hl.
Qed.

(** X6. [ls] only reads: it never calls [mkdir], [move] or [writeFile]. *)
Theorem ls_only_reads (cx : ExecuteContext) (fs0 : FS) :
  Forall (fun e => mutating e = false) (run (Ls.main cx) fs0 tt).
Proof.
  unfold run, Ls.main.
  unfold then_ at 1. unfold ready, emit at 1. cbn [fst snd fs trace vars].
  destruct (arg_help cx).
  - by repeat constructor.
  - destruct (listNext_calls cx (getArg_list cx [getPwd cx])
                {| fs := fs0; trace := [] ++ [Ready]; vars := tt |})
      as (n & evs & E & _ & _ & _ & _ & Hm).
    rewrite E. cbn [trace]. apply Forall_app. split; [by repeat constructor|done].
Qed.

(** X7. When [list] fails with a type mismatch and the [stat] that follows
    fails too, [ls] closes with the failure of [stat], not with the type
    mismatch, and writes nothing for the target. *)
Theorem ls_closes_with_the_failure_of_stat (cx : ExecuteContext)
    (pathSpec : string) (w : World Path FS unit) (e e' : Failure) (fs1 fs2 : FS) :
  let path := Path_abs (getPwd cx) pathSpec in
  fsm_list path (fs w) = (Fail e, fs1) →
  test TypeMismatch e = true →
  fsm_stat path fs1 = (Fail e', fs2) →
  snd (Ls.listPathSpec cx pathSpec w) =
    {| fs := fs2;
       trace := trace w ++ [Fs (CList path); Fs (CStat path); CloseError e'];
       vars := vars w |}.
Proof.
  intros path Hlist Htm Hstat.
  rewrite (listPathSpec_stat_fails cx pathSpec w e e' fs1 fs2 Hlist Htm Hstat).
  cbn [snd]. fold path. by rewrite <-!app_assoc.
Qed.

(** X8. With the help flag [ls] writes its usage text and closes with Ok;
    the targets are not looked at and the file system is not called. *)
Theorem ls_help_shows_usage (cx : ExecuteContext) (fs0 : FS) :
  arg_help cx = true →
  run (Ls.main cx) fs0 tt = [Ready; Write Ls.usage; CloseOk] ∧
  run_fs (Ls.main cx) fs0 tt = fs0.
Proof. intros Hhelp. unfold run, run_fs, Ls.main. by rewrite Hhelp. Qed.

End LsCalls.

(** ** mkdir: what is written *)

Lemma writes_cons {Path} (e : Event Path) (tr : list (Event Path)) :
  writes (e :: tr) = if is_write e then e :: writes tr else writes tr.
Proof.
  unfold writes. rewrite filter_cons. destruct (is_write e); by case_decide.
Qed.

Lemma writes_app {Path} (a b : list (Event Path)) :
  writes (a ++ b) = writes a ++ writes b.
Proof. unfold writes. apply filter_app. Qed.

Section MkdirWrites.
Context {Path FS : Type}.
Context `{PathHost Path} `{FileSystemManager Path FS} `{ErrorHost}.

Lemma mkdir_steps_writes (cx : ExecuteContext) (targets : list string) (fs0 : FS) :
  writes (fst (fst (mkdir_steps cx targets fs0))) =
    map (fun pe => Write (Mkdir.error_line (fst pe) (snd pe)))
      (mkdir_failures cx targets fs0).
Proof.
  revert fs0. induction targets as [|pathSpec rest IH]; intros fs0; [done|].
  cbn [mkdir_steps mkdir_failures].
  destruct (fsm_mkdir (Path_abs (getPwd cx) pathSpec) fs0) as [r fs1].
  cbn [fst snd]. specialize (IH fs1).
  destruct (mkdir_steps cx rest fs1) as [[evs failed] fs2]. cbn [fst] in IH.
  destruct r; cbn [fst map]; rewrite !writes_cons; cbn [is_write]; by rewrite IH.
Qed.

Lemma mkdir_steps_no_failure (cx : ExecuteContext) (targets : list string) (fs0 : FS) :
  mkdir_failures cx targets fs0 = [] →
  fst (mkdir_steps cx targets fs0) =
    (map (fun pathSpec => Fs (CMkdir (Path_abs (getPwd cx) pathSpec))) targets,
     false).
Proof.
  revert fs0. induction targets as [|pathSpec rest IH]; intros fs0 Hnone; [done|].
  cbn [mkdir_steps mkdir_failures] in *.
  destruct (fsm_mkdir (Path_abs (getPwd cx) pathSpec) fs0) as [r fs1].
  cbn [fst snd] in *. destruct r as [u|e]; [|done].
  specialize (IH fs1 Hnone).
  destruct (mkdir_steps cx rest fs1) as [[evs failed] fs2]. cbn [fst] in *.
  by injection IH as -> ->.
Qed.

(** X9. [mkdir] writes one line for each target that fails, in the order of
    the arguments, and nothing else; when no target fails it writes nothing,
    calls [mkdir] once for each target and closes with Ok. *)
Theorem mkdir_writes_a_line_per_failure (cx : ExecuteContext) (fuel : nat)
    (l : list string) (fs0 : FS) (v0 : Mkdir.Vars) :
  arg_list cx = Some l →
  l ≠ [] →
  arg_help cx = false →
  length l ≤ fuel →
  writes (run (Mkdir.main fuel cx) fs0 v0) =
    map (fun pe => Write (Mkdir.error_line (fst pe) (snd pe)))
      (mkdir_failures cx l fs0) ∧
  (mkdir_failures cx l fs0 = [] →
   run (Mkdir.main fuel cx) fs0 v0 =
     Ready ::
     map (fun pathSpec => Fs (CMkdir (Path_abs (getPwd cx) pathSpec))) l ++
     [CloseOk]).
Proof.
  intros Hargs Hne Hhelp Hfuel.
  destruct (mkdir_main_run cx fuel l fs0 v0 Hargs Hne Hhelp Hfuel)
    as (evs & failed & fs2 & Hsteps & Hrun & _).
  pose proof (mkdir_steps_writes cx l fs0) as Hw. rewrite Hsteps in Hw.
  cbn [fst] in Hw. split.
  - rewrite Hrun, writes_cons. cbn [is_write]. rewrite writes_app, Hw.
    destruct failed; by rewrite app_nil_r.
  - intros Hnone. pose proof (mkdir_steps_no_failure cx l fs0 Hnone) as Hok.
    rewrite Hsteps in Hok. cbn [fst] in Hok. injection Hok as -> ->.
    exact Hrun.
Qed.

(** X10. Without a target, or with the help flag, [mkdir] writes its usage
    text and closes with Ok without a call on the file system. *)
Theorem mkdir_without_targets_shows_usage (cx : ExecuteContext) (fuel : nat)
    (fs0 : FS) (v0 : Mkdir.Vars) :
  getArg_list cx [] = [] ∨ arg_help cx = true →
  run (Mkdir.main fuel cx) fs0 v0 = [Ready; Write Mkdir.usage; CloseOk] ∧
  run_fs (Mkdir.main fuel cx) fs0 v0 = fs0.
Proof.
  intros Hcond. unfold run, run_fs, Mkdir.main.
  replace ((length (getArg_list cx []) =? 0) || arg_help cx) with true; [done|].
  symmetry. apply orb_true_iff. destruct Hcond as [-> | ->]; [by left|by right].
Qed.

End MkdirWrites.

(** ** import: the parents of a file *)

Section ImportParents.
Import ImportCommand.
Context {Path FS : Type}.
Context `{PathHost Path} `{FileSystemManager Path FS}.

Lemma world_eta (w : World Path FS (Vars Path)) :
  w = {| fs := fs w; trace := trace w ++ []; vars := vars w |}.
Proof. destruct w. cbn. by rewrite app_nil_r. Qed.

(** [mkdir] on one path, a duplicate being no failure. *)
Lemma mkdir_tolerant (path : Path) (w : World Path FS (Vars Path)) :
  ∃ r,
    catch_ (fs_call (CMkdir path) (fsm_mkdir path))
      (fun e => if test Duplicate e then resolve tt else reject e) w =
      (r, {| fs := snd (fsm_mkdir path (fs w));
             trace := trace w ++ [Fs (CMkdir path)]; vars := vars w |}) ∧
    (r = Fulfilled tt ∨ ∃ e, r = Rejected e ∧ test Duplicate e = false).
Proof.
  unfold catch_, fs_call.
  destruct (fsm_mkdir path (fs w)) as [[u|e] fs1]; cbn [snd].
  - exists (Fulfilled tt). split; [by destruct u|by left].
  - destruct (test Duplicate e) eqn:Hd.
    + exists (Fulfilled tt). split; [done|by left].
    + exists (Rejected e). split; [done|]. right. by exists e.
Qed.

Lemma mkdir_chain_app (a b : list Path) (fs0 : FS) :
  mkdir_chain (a ++ b) fs0 =
    match mkdir_chain a fs0 with
    | (evs1, Fulfilled _, fs1) =>
        let '(evs2, r2, fs2) := mkdir_chain b fs1 in (evs1 ++ evs2, r2, fs2)
    | other => other
    end.
Proof.
  revert fs0. induction a as [|p a IH]; intros fs0.
  - cbn. by destruct (mkdir_chain b fs0) as [[evs2 r2] fs2].
  - cbn [app mkdir_chain].
    destruct (fsm_mkdir p fs0) as [[u|e] fs1].
    + rewrite IH. destruct (mkdir_chain a fs1) as [[evs1 [u1|e1|]] fs2]; try done.
      by destruct (mkdir_chain b fs2) as [[evs2 r2] fs3].
    + destruct (test Duplicate e); [|done].
      rewrite IH. destruct (mkdir_chain a fs1) as [[evs1 [u1|e1|]] fs2]; try done.
      by destruct (mkdir_chain b fs2) as [[evs2 r2] fs3].
Qed.

(** A chain is never left pending, and what it is rejected with is not a
    duplicate. *)
Lemma mkdir_chain_settles (chain : list Path) (fs0 : FS) :
  snd (fst (mkdir_chain chain fs0)) = Fulfilled tt ∨
  ∃ e, snd (fst (mkdir_chain chain fs0)) = Rejected e ∧ test Duplicate e = false.
Proof.
  revert fs0. induction chain as [|p rest IH]; intros fs0; [by left|].
  cbn [mkdir_chain]. destruct (fsm_mkdir p fs0) as [[u|e] fs1].
  - specialize (IH fs1). by destruct (mkdir_chain rest fs1) as [[evs r] fs2].
  - destruct (test Duplicate e) eqn:Hd.
    + specialize (IH fs1). by destruct (mkdir_chain rest fs1) as [[evs r] fs2].
    + right. by exists e.
Qed.

(** The walk of [mkdirParent_] up to the root and back is the chain of
    [mkdir] from the root down. *)
Lemma mkdirParent_chain (fuel : nat) :
  ∀ (path : Path) (chain : list Path) (w : World Path FS (Vars Path)),
    ancestry fuel path = Some chain →
    mkdirParent_ fuel path w =
      (snd (fst (mkdir_chain chain (fs w))),
       {| fs := snd (mkdir_chain chain (fs w));
          trace := trace w ++ fst (fst (mkdir_chain chain (fs w)));
          vars := vars w |}).
Proof.
  induction fuel as [|fuel IH]; intros path chain w Hchain.
  - cbn [ancestry mkdirParent_] in *.
    destruct (getParentPath path) as [parentPath|]; [done|].
    injection Hchain as <-. cbn. unfold resolve. f_equal. apply world_eta.
  - cbn [ancestry mkdirParent_] in *.
    destruct (getParentPath path) as [parentPath|].
    + destruct (ancestry fuel parentPath) as [above|] eqn:Habove; [|done].
      cbn in Hchain. injection Hchain as <-.
      unfold then_ at 1. rewrite (IH parentPath above w Habove).
      rewrite mkdir_chain_app.
      destruct (mkdir_chain above (fs w)) as [[evs1 [[]|e1|]] fs1]; cbn [fst snd];
        [|done..].
      unfold catch_, fs_call. cbn [fs trace vars mkdir_chain].
      destruct (fsm_mkdir path fs1) as [[u|e] fs2]; cbn.
      * destruct u. by rewrite <-app_assoc.
      * destruct (test Duplicate e); cbn; by rewrite <-app_assoc.
    + injection Hchain as <-. cbn. unfold resolve. f_equal. apply world_eta.
Qed.

(** X11. [mkdirParent_] calls [mkdir] on the ancestors of a path and on the
    path itself, the nearest to the root first and the root left out, each
    call on the file system the call before left, and calls nothing else.  A
    failure that is a duplicate does not stop it; the first other failure
    does, and is what the promise is rejected with: the result, the calls
    and the file system are those of [mkdir_chain].  It never stays
    pending. *)
Theorem mkdirParent_goes_down_from_the_root (fuel : nat) (path : Path)
    (chain : list Path) (w : World Path FS (Vars Path)) :
  ancestry fuel path = Some chain →
  mkdirParent_ fuel path w =
    (snd (fst (mkdir_chain chain (fs w))),
     {| fs := snd (mkdir_chain chain (fs w));
        trace := trace w ++ fst (fst (mkdir_chain chain (fs w)));
        vars := vars w |}) ∧
  (snd (fst (mkdir_chain chain (fs w))) = Fulfilled tt ∨
   ∃ e, snd (fst (mkdir_chain chain (fs w))) = Rejected e ∧
        test Duplicate e = false).
Proof.
  intros Hchain. split; [by apply mkdirParent_chain|apply mkdir_chain_settles].
Qed.

End ImportParents.

(** ** import: one file *)

Section ImportFile.
Import ImportCommand.
Context {Path FS : Type}.
Context `{PathHost Path} `{FileSystemManager Path FS}.

(** X12. When the parent directory of a file exists, [onFileLoad] calls
    [stat] on it and then [writeFile], and nothing else; the file counts as
    failed exactly when the write fails, with the failure of the write. *)
Theorem import_file_into_existing_directory (fuel : nat) (path parent : Path)
    (fileContent : string) (w : World Path FS (Vars Path))
    (stat : StatResult) (fs1 : FS) :
  getParentPath path = Some parent →
  fsm_stat parent (fs w) = (Ok stat, fs1) →
  onFileLoad fuel path fileContent w =
    (Fulfilled
       match fst (fsm_writeFile path fileContent fs1) with
       | Ok _ => None
       | Fail e => Some e
       end,
     {| fs := snd (fsm_writeFile path fileContent fs1);
        trace := trace w ++ [Fs (CStat parent); Fs (CWriteFile path fileContent)];
        vars := vars w |}).
Proof.
  intros Hparent Hstat. unfold onFileLoad. rewrite Hparent.
  unfold catch_, then_, fs_call. rewrite Hstat. cbn.
  destruct (fsm_writeFile path fileContent fs1) as [[u|e] fs2]; cbn;
    rewrite <-?app_assoc; reflexivity.
Qed.

(** X13. When [stat] on the parent directory fails with anything but
    NotFound, no directory is made and the file is not written: the failure
    of [stat] is the result of the file. *)
Theorem import_file_when_stat_fails (fuel : nat) (path parent : Path)
    (fileContent : string) (w : World Path FS (Vars Path))
    (e : Failure) (fs1 : FS) :
  getParentPath path = Some parent →
  fsm_stat parent (fs w) = (Fail e, fs1) →
  test NotFound e = false →
  onFileLoad fuel path fileContent w =
    (Fulfilled (Some e),
     {| fs := fs1; trace := trace w ++ [Fs (CStat parent)]; vars := vars w |}).
Proof.
  intros Hparent Hstat Hnf. unfold onFileLoad. rewrite Hparent.
  unfold catch_, then_, fs_call. rewrite Hstat. cbn. rewrite Hnf. reflexivity.
Qed.

(** X14. When the parent directory is not found, [onFileLoad] makes the
    directories down from the root, each on the file system the call before
    left.  If the chain goes through, it writes the file on the file system
    the chain left, and the result of the file is that of the write; if a
    directory cannot be made, the file is not written and the failure of
    that [mkdir] is the result of the file. *)
Theorem import_file_into_missing_directory (fuel : nat) (path parent : Path)
    (fileContent : string) (w : World Path FS (Vars Path))
    (e : Failure) (fs1 : FS) (chain : list Path) :
  getParentPath path = Some parent →
  fsm_stat parent (fs w) = (Fail e, fs1) →
  test NotFound e = true →
  ancestry fuel parent = Some chain →
  onFileLoad fuel path fileContent w =
    match mkdir_chain chain fs1 with
    | (made, Fulfilled _, fs2) =>
        (Fulfilled
           match fst (fsm_writeFile path fileContent fs2) with
           | Ok _ => None
           | Fail e' => Some e'
           end,
         {| fs := snd (fsm_writeFile path fileContent fs2);
            trace := trace w ++ [Fs (CStat parent)] ++ made ++
                     [Fs (CWriteFile path fileContent)];
            vars := vars w |})
    | (made, Rejected e', fs2) =>
        (Fulfilled (Some e'),
         {| fs := fs2; trace := trace w ++ [Fs (CStat parent)] ++ made;
            vars := vars w |})
    | (made, Pending, fs2) =>
        (Pending,
         {| fs := fs2; trace := trace w ++ [Fs (CStat parent)] ++ made;
            vars := vars w |})
    end.
Proof.
  intros Hparent Hstat Hnf Hchain.
  pose proof (mkdirParent_chain fuel parent chain
                {| fs := fs1; trace := trace w ++ [Fs (CStat parent)];
                   vars := vars w |} Hchain) as E.
  cbn [fs trace vars] in E.
  unfold onFileLoad. rewrite Hparent.
  unfold catch_, then_, fs_call. rewrite Hstat. cbn [fst snd].
  unfold reject. rewrite Hnf, E.
  destruct (mkdir_chain chain fs1) as [[made [[]|e'|]] fs2]; cbn [fst snd fs trace vars].
  - unfold resolve.
    destruct (fsm_writeFile path fileContent fs2) as [[u|e'] fs3]; cbn;
      rewrite <-?app_assoc; reflexivity.
  - unfold resolve. rewrite <-?app_assoc. reflexivity.
  - rewrite <-?app_assoc. reflexivity.
Qed.

End ImportFile.

(** ** import: a selection *)

Section ImportSelection.
Import ImportCommand.
Context {Path FS : Type}.
Context `{PathHost Path} `{FileSystemManager Path FS}.

Lemma mkdirParent_frame (fuel : nat) :
  ∀ (path : Path) (w : World Path FS (Vars Path)),
    ∃ r fs' evs,
      mkdirParent_ fuel path w =
        (r, {| fs := fs'; trace := trace w ++ evs; vars := vars w |}) ∧
      Forall (fun e => is_fs e = true) evs.
Proof.
  induction fuel as [|fuel IH]; intros path w; cbn [mkdirParent_];
    destruct (getParentPath path) as [parentPath|].
  - exists Pending, (fs w), []. split; [|done]. unfold pending. f_equal.
    apply world_eta.
  - exists (Fulfilled tt), (fs w), []. split; [|done]. unfold resolve. f_equal.
    apply world_eta.
  - destruct (IH parentPath w) as (r & fs1 & evs & E & Hevs).
    unfold then_ at 1. rewrite E. destruct r as [[]|e|].
    + destruct (mkdir_tolerant path
                  {| fs := fs1; trace := trace w ++ evs; vars := vars w |})
        as (r & E2 & _).
      rewrite E2. cbn [fs trace vars].
      exists r, (snd (fsm_mkdir path fs1)), (evs ++ [Fs (CMkdir path)]).
      split; [by rewrite app_assoc|]. apply Forall_app. by split; [|repeat constructor].
    + by exists (Rejected e), fs1, evs.
    + by exists Pending, fs1, evs.
  - exists (Fulfilled tt), (fs w), []. split; [|done]. unfold resolve. f_equal.
    apply world_eta.
Qed.

(** The promise of a file is never rejected, and its reader only calls the
    file system. *)
Lemma onFileLoad_frame (fuel : nat) (path : Path) (fileContent : string)
    (w : World Path FS (Vars Path)) :
  ∃ r fs' evs,
    onFileLoad fuel path fileContent w =
      (r, {| fs := fs'; trace := trace w ++ evs; vars := vars w |}) ∧
    Forall (fun e => is_fs e = true) evs ∧
    (∀ e, r ≠ Rejected e).
Proof.
  unfold onFileLoad. destruct (getParentPath path) as [parent|].
  2:{ exists Pending, (fs w), []. split_and!; [|done..]. unfold pending. f_equal.
      apply world_eta. }
  unfold catch_, then_, fs_call, resolve, reject. cbn [fs trace vars].
  destruct (fsm_stat parent (fs w)) as [[stat|e] fs1]; cbn [fst snd fs trace vars].
  - destruct (fsm_writeFile path fileContent fs1) as [[u|e] fs2];
      eexists _, fs2, [Fs (CStat parent); Fs (CWriteFile path fileContent)];
      (split_and!; [by rewrite <-app_assoc|by repeat constructor|done]).
  - destruct (test NotFound e) eqn:Hnf.
    + destruct (mkdirParent_frame fuel parent
                  {| fs := fs1; trace := trace w ++ [Fs (CStat parent)];
                     vars := vars w |}) as (r1 & fs2 & evs1 & E1 & Hevs1).
      rewrite E1. cbn [fs trace vars] in *. destruct r1 as [[]|e1|].
      * destruct (fsm_writeFile path fileContent fs2) as [[u|e'] fs3];
          eexists _, fs3,
            (Fs (CStat parent) :: evs1 ++ [Fs (CWriteFile path fileContent)]);
          (split_and!;
           [cbn; f_equal; f_equal; by rewrite <-!app_assoc
           |constructor; [done|apply Forall_app; by split; [|repeat constructor]]
           |done]).
      * exists (Fulfilled (Some e1)), fs2, (Fs (CStat parent) :: evs1).
        split_and!; [by rewrite <-app_assoc|by constructor|done].
      * exists Pending, fs2, (Fs (CStat parent) :: evs1).
        split_and!; [by rewrite <-app_assoc|by constructor|done].
    + exists (Fulfilled (Some e)), fs1, [Fs (CStat parent)].
      split_and!; [done|by repeat constructor|done].
Qed.


End ImportSelection.

Section ImportOutcome.
Import ImportCommand.
Context {Path FS : Type}.
Context `{PathHost Path} `{FileSystemManager Path FS}.



(** X15. After a change event with one file, its reader having loaded, the
    command makes the calls of [onFileLoad] for that file and no other.
    When the promise of the file is fulfilled it removes its two inputs,
    gives the focus back and closes once: with Ok when the file has no
    failure, otherwise with one Unknown error that holds the failure of the
    file.  While the promise is pending it does not close and its inputs
    stay in the document. *)
Theorem import_of_one_file_closes_after_it (cx : ExecuteContext)
    (fuel : nat) (fs0 : FS) (f : File) :
  length (getArg_list cx []) ≤ 1 →
  arg_help cx = false →
  let dest := Path_abs (getPwd cx) (default "." (getArg_list cx [] !! 0)) in
  let relativePath :=
    match webkitRelativePath f with
    | Some rel => if arg_file cx then name f else rel
    | None => name f
    end in
  let loaded :=
    onFileLoad fuel (Path_abs (path_spec dest) relativePath) (content f)
      {| fs := fs0; trace := opening;
         vars := {| destination := Some dest; singleFile_ := arg_file cx;
                    filesChosen_ := true; body := [DummyFocusInput; FileInput];
                    timers := 0; listening := true |} |} in
  run (session fuel cx [Change [f]]) fs0 vars0 =
    trace (snd loaded) ++
    match fst loaded with
    | Fulfilled None =>
        [Dom (RemoveChild FileInput); Dom (RemoveChild DummyFocusInput);
         Dom (Focus OriginalFocus); CloseOk]
    | Fulfilled (Some e) =>
        [Dom (RemoveChild FileInput); Dom (RemoveChild DummyFocusInput);
         Dom (Focus OriginalFocus); CloseError (AxiomErrorOf Unknown [e])]
    | _ => []
    end ∧
  run_fs (session fuel cx [Change [f]]) fs0 vars0 = fs (snd loaded) ∧
  body (run_vars (session fuel cx [Change [f]]) fs0 vars0) =
    match fst loaded with
    | Fulfilled _ => []
    | _ => [DummyFocusInput; FileInput]
    end.
Proof.
  intros Hlen Hhelp dest relativePath loaded.
  set (w1 := {| fs := fs0; trace := opening;
                vars := {| destination := Some dest; singleFile_ := arg_file cx;
                           filesChosen_ := true;
                           body := [DummyFocusInput; FileInput];
                           timers := 0; listening := true |} |}) in *.
  assert (Hrun :
    snd (session fuel cx [Change [f]]
           {| fs := fs0; trace := []; vars := vars0 |}) =
    snd (then_ (copy_all fuel dest (arg_file cx) [f])
           (fun values =>
              destroy_ >>
              let errors := omap id values in
              if (length errors =? 0)%nat then closeOk
              else stmt (closeError cx (AxiomErrorOf Unknown errors))) w1)).
  { unfold session. unfold then_ at 1. unfold stmt at 1.
    rewrite (import_main_opens cx fs0 Hlen Hhelp). reflexivity. }
  unfold run, run_fs, run_vars. rewrite Hrun. clear Hrun.
  destruct (onFileLoad_frame fuel (Path_abs (path_spec dest) relativePath)
              (content f) w1) as (r & fs1 & evs & E & _ & Hrej).
  subst loaded. unfold then_. cbn [copy_all]. fold relativePath.
  rewrite !E. cbn [fst snd fs trace vars w1].
  destruct r as [[e|]|e|]; [| |by destruct (Hrej e)|]; simpl;
    rewrite <-?app_assoc, ?app_nil_r; done.
Qed.


End ImportOutcome.

Section ImportEdges.
Import ImportCommand.
Context {Path FS : Type}.
Context `{PathHost Path} `{FileSystemManager Path FS}.

Lemma not_listening_stays (fuel : nat) (cx : ExecuteContext) (ss : list Step)
    (w : World Path FS (Vars Path)) :
  listening (vars w) = false →
  steps fuel cx ss w = (Fulfilled tt, w).
Proof.
  induction ss as [|s ss IH]; intros Hl; [done|].
  cbn [steps]. unfold then_ at 1. unfold stmt at 1.
  replace (snd (step fuel cx s w)) with w; [by apply IH|].
  unfold step, then_, get_vars. cbn. by rewrite Hl.
Qed.

Lemma session_snd (fuel : nat) (cx : ExecuteContext) (ss : list Step)
    (w : World Path FS (Vars Path)) :
  snd (session fuel cx ss w) = snd (steps fuel cx ss (snd (main cx w))).
Proof. reflexivity. Qed.

(** X17. With more than one target, or with the help flag, [import] writes
    its usage text and closes with Ok: no input is put in the document, and
    no later event of the page does anything. *)
Theorem import_usage_opens_nothing (cx : ExecuteContext) (fuel : nat)
    (fs0 : FS) (ss : list Step) :
  1 < length (getArg_list cx []) ∨ arg_help cx = true →
  run (session fuel cx ss) fs0 vars0 = [Ready; Write usage; CloseOk] ∧
  run_vars (session fuel cx ss) fs0 vars0 = vars0 ∧
  run_fs (session fuel cx ss) fs0 vars0 = fs0.
Proof.
  intros Hcond.
  assert (Hmain :
    snd (main cx {| fs := fs0; trace := []; vars := vars0 |}) =
      {| fs := fs0; trace := [Ready; Write usage; CloseOk]; vars := vars0 |}).
  { unfold main.
    replace ((1 <? length (getArg_list cx [])) || arg_help cx) with true;
      [done|].
    symmetry. apply orb_true_iff. destruct Hcond as [Hlt| ->]; [left|by right].
    by apply Nat.ltb_lt. }
  unfold run, run_vars, run_fs. rewrite !session_snd, Hmain.
  rewrite not_listening_stays by done. done.
Qed.

(** X18. A change event with no file closes with Ok at once, after the two
    inputs are removed, without a call on the file system. *)
Theorem import_of_no_file_closes_ok (cx : ExecuteContext) (fuel : nat) (fs0 : FS) :
  length (getArg_list cx []) ≤ 1 →
  arg_help cx = false →
  run (session fuel cx [Change []]) fs0 vars0 =
    opening ++
    [Dom (RemoveChild FileInput); Dom (RemoveChild DummyFocusInput);
     Dom (Focus OriginalFocus); CloseOk] ∧
  run_fs (session fuel cx [Change []]) fs0 vars0 = fs0.
Proof.
  intros Hlen Hhelp. unfold run, run_fs. rewrite !session_snd.
  rewrite (import_main_opens cx fs0 Hlen Hhelp). done.
Qed.

(** X19. With the single-file flag the relative path of a chosen file is not
    used: it is copied under its name, as a file without a relative path. *)
Theorem import_single_file_ignores_relative_path (fuel : nat) (dest : Path)
    (files : list File) (w : World Path FS (Vars Path)) :
  copy_all fuel dest true files w =
    copy_all fuel dest true (map flat_file files) w.
Proof.
  revert w. induction files as [|f rest IH]; intros w; [done|].
  cbn [copy_all map flat_file name webkitRelativePath content].
  replace (match webkitRelativePath f with
           | Some _ => name f
           | None => name f
           end) with (name f) by (by destruct (webkitRelativePath f)).
  destruct (onFileLoad fuel (Path_abs (path_spec dest) (name f)) (content f) w)
    as [r w1].
  by rewrite IH.
Qed.

End ImportEdges.

(** ** The app launcher *)

Section Launcher.
Import Bootstrap.

Lemma onLaunched_unbound (ready : bool) (s : State) :
  axiomCommands s = false →
  onLaunched ready s =
    {| didLaunchEarly := true; axiomCommands := false;
       dispatched := dispatched s |}.
Proof. intros Hs. unfold onLaunched. by rewrite Hs. Qed.

Lemma onLaunched_unready (s : State) :
  onLaunched false s =
    {| didLaunchEarly := true; axiomCommands := axiomCommands s;
       dispatched := dispatched s |}.
Proof. unfold onLaunched. by rewrite orb_true_r. Qed.

Lemma onLaunched_ready (s : State) :
  axiomCommands s = true →
  onLaunched true s =
    {| didLaunchEarly := didLaunchEarly s; axiomCommands := true;
       dispatched := S (dispatched s) |}.
Proof. intros Hs. unfold onLaunched. by rewrite Hs. Qed.

(** Before the service binding is assigned nothing is dispatched, and a
    launch is remembered. *)
Lemma early_launches (s : State) (answers : list bool) :
  axiomCommands s = false →
  fold_left step (map Launched answers) s =
    {| didLaunchEarly := didLaunchEarly s || bool_decide (answers ≠ []);
       axiomCommands := false; dispatched := dispatched s |}.
Proof.
  revert s. induction answers as [|a answers IH]; intros s Hs.
  - destruct s. cbn in *. subst. by rewrite orb_false_r.
  - cbn [map fold_left step]. rewrite (onLaunched_unbound a s Hs).
    rewrite IH by done. cbn. by rewrite orb_true_r.
Qed.

Lemma unready_launches (s : State) (j : nat) :
  fold_left step (replicate j (Launched false)) s =
    {| didLaunchEarly := didLaunchEarly s || bool_decide (j ≠ 0);
       axiomCommands := axiomCommands s; dispatched := dispatched s |}.
Proof.
  revert s. induction j as [|j IH]; intros s.
  - destruct s. cbn. by rewrite orb_false_r.
  - cbn [replicate fold_left step]. rewrite onLaunched_unready, IH.
    cbn. by rewrite orb_true_r.
Qed.

Lemma ready_launches (s : State) (k : nat) :
  axiomCommands s = true →
  fold_left step (replicate k (Launched true)) s =
    {| didLaunchEarly := didLaunchEarly s; axiomCommands := true;
       dispatched := k + dispatched s |}.
Proof.
  revert s. induction k as [|k IH]; intros s Hs.
  - destruct s. cbn in *. by subst.
  - cbn [replicate fold_left step]. rewrite (onLaunched_ready s Hs).
    rewrite IH by done. cbn. f_equal. lia.
Qed.

(** X20. Launches that come before the commands service is ready are not
    dispatched when they come; when the service is ready they are made up
    for by one single dispatch, however many they were, and by none when
    there was none.  Every launch after that is dispatched at once. *)
Theorem early_launches_are_dispatched_once (answers : list bool) (j k : nat) :
  dispatched
    (Bootstrap.run
       (map Launched answers ++ [ShellStarted] ++
        replicate j (Launched false) ++ [WhenReady true] ++
        replicate k (Launched true))) =
    k + (if bool_decide (answers = [] ∧ j = 0) then 0 else 1).
Proof.
  unfold Bootstrap.run. rewrite !fold_left_app.
  rewrite early_launches by done. cbn [fold_left].
  rewrite unready_launches. cbn [step didLaunchEarly axiomCommands dispatched init].
  destruct answers as [|a answers], j as [|j]; cbn [orb bool_decide decide_rel];
    cbn; rewrite ?onLaunched_ready by done; rewrite ready_launches by done;
    cbn; repeat case_bool_decide; cbn; first [lia | exfalso; intuition lia].
Qed.

(** X21. Whatever the answers of the binding, nothing is dispatched before
    [shellMain] has resolved. *)
Theorem no_dispatch_before_the_shell (es : list Event) :
  ShellStarted ∉ es →
  dispatched (Bootstrap.run es) = 0 ∧ axiomCommands (Bootstrap.run es) = false.
Proof.
  unfold Bootstrap.run.
  assert (Hgen : ∀ s, axiomCommands s = false → ShellStarted ∉ es →
            dispatched (fold_left step es s) = dispatched s ∧
            axiomCommands (fold_left step es s) = false).
  { induction es as [|e es IH]; intros s Hs Hnot; [done|].
    cbn [fold_left]. apply not_elem_of_cons in Hnot as [Hne Hnot].
    destruct e as [ready| |ready]; [| done |].
    - destruct (IH (step s (Launched ready))) as [Hd Ha]; [|done|].
      + cbn. by rewrite (onLaunched_unbound ready s Hs).
      + split; [|done]. rewrite Hd. cbn.
        by rewrite (onLaunched_unbound ready s Hs).
    - destruct (IH (step s (WhenReady ready))) as [Hd Ha]; [|done|].
      + cbn. by rewrite Hs.
      + split; [|done]. rewrite Hd. cbn. by rewrite Hs. }
  intros Hnot. by apply Hgen.
Qed.

End Launcher.

(** ** The further properties on the sample host *)

Lemma ls_lists_targets_in_order_witness :
  list_calls (run (Ls.main (Sample.cx_of ["/home"; "/tmp"] "/")) Sample.disk tt) =
    [Fs (CList (Sample.abs "/" "/home")); Fs (CList (Sample.abs "/" "/tmp"))].
Proof.
  destruct (ls_lists_targets_in_order (Sample.cx_of ["/home"; "/tmp"] "/") Sample.disk eq_refl)
    as (n & _ & _ & Hall & ->).
  by rewrite (Hall eq_refl).
Defined.

Lemma ls_closes_with_the_failure_of_stat_witness :
  trace
    (snd (Ls.listPathSpec (FS:=unit) (H2:=Broken.manager) (Sample.cx_of [] "/") "/x"
            {| fs := tt; trace := []; vars := tt |})) =
    [Fs (CList (Sample.abs "/" "/x")); Fs (CStat (Sample.abs "/" "/x"));
     CloseError Broken.out_of_order].
Proof.
  rewrite (ls_closes_with_the_failure_of_stat (H2:=Broken.manager)
             (Sample.cx_of [] "/") "/x" {| fs := tt; trace := []; vars := tt |}
             (AxiomError TypeMismatch "dir") Broken.out_of_order tt tt
             eq_refl eq_refl eq_refl).
  reflexivity.
Defined.

Lemma ls_help_shows_usage_witness :
  run (Ls.main (Sample.cx_help ["/home"] "/")) Sample.disk tt = [Ready; Write Ls.usage; CloseOk].
Proof. apply (ls_help_shows_usage (Sample.cx_help ["/home"] "/") Sample.disk). reflexivity. Defined.

Lemma mkdir_writes_a_line_per_failure_witness :
  writes (run (Mkdir.main 3 (Sample.cx_of ["a"; "home"; "c"] "/")) Sample.disk Mkdir.vars0) =
    [Write (Mkdir.error_line (Sample.abs "/" "home")
              (AxiomError Duplicate "directory-name"))].
Proof.
  rewrite (proj1 (mkdir_writes_a_line_per_failure
                    (Sample.cx_of ["a"; "home"; "c"] "/") 3 ["a"; "home"; "c"] Sample.disk
                    Mkdir.vars0 eq_refl ltac:(discriminate) eq_refl (le_n 3))).
  vm_compute. reflexivity.
Defined.

Lemma mkdir_without_targets_shows_usage_witness :
  run (Mkdir.main 0 (Sample.cx_of [] "/")) Sample.disk Mkdir.vars0 =
    [Ready; Write Mkdir.usage; CloseOk].
Proof.
  apply (mkdir_without_targets_shows_usage (Sample.cx_of [] "/") 0 Sample.disk Mkdir.vars0).
  by left.
Defined.

Lemma settled_world_eq {A Path FS L : Type} (r r' : Settled A) (f f' : FS)
    (t t' : list (Event Path)) (v v' : L) :
  r = r' → f = f' → t = t' → v = v' →
  (r, {| fs := f; trace := t; vars := v |}) =
  (r', {| fs := f'; trace := t'; vars := v' |}).
Proof. by intros -> -> -> ->. Qed.

Lemma mkdirParent_goes_down_from_the_root_witness :
  ImportCommand.mkdirParent_ 4 (Sample.abs "/" "/home/notes/x/y") w_open =
    (Rejected (AxiomError NotFound "path"),
     {| fs := Sample.disk;
        trace := [Fs (CMkdir (Sample.abs "/" "/home"));
                  Fs (CMkdir (Sample.abs "/" "/home/notes"));
                  Fs (CMkdir (Sample.abs "/" "/home/notes/x"))];
        vars := ImportCommand.vars0 |}) ∧
  ImportCommand.mkdirParent_ 3 (Sample.abs "/" "/tmp/d/e") w_open =
    (Fulfilled tt,
     {| fs := <[["tmp"; "d"; "e"] := Sample.DirNode]>
                (<[["tmp"; "d"] := Sample.DirNode]> Sample.disk);
        trace := [Fs (CMkdir (Sample.abs "/" "/tmp"));
                  Fs (CMkdir (Sample.abs "/" "/tmp/d"));
                  Fs (CMkdir (Sample.abs "/" "/tmp/d/e"))];
        vars := ImportCommand.vars0 |}).
Proof.
  assert (Hxy : ancestry 4 (Sample.abs "/" "/home/notes/x/y") = Some home_notes_x_y)
    by (vm_compute; reflexivity).
  assert (Hde : ancestry 3 (Sample.abs "/" "/tmp/d/e") = Some tmp_d_e)
    by (vm_compute; reflexivity).
  rewrite (proj1 (mkdirParent_goes_down_from_the_root 4
                    (Sample.abs "/" "/home/notes/x/y") home_notes_x_y w_open Hxy)).
  rewrite (proj1 (mkdirParent_goes_down_from_the_root 3
                    (Sample.abs "/" "/tmp/d/e") tmp_d_e w_open Hde)).
  split;
    (apply settled_world_eq;
     [vm_compute; reflexivity|reflexivity|vm_compute; reflexivity|reflexivity]).
Defined.

Lemma import_file_into_existing_directory_witness :
  ImportCommand.onFileLoad 0 (Sample.abs "/" "/tmp/f.txt") "hello" w_open =
    (Fulfilled
       match fst (fsm_writeFile (Sample.abs "/" "/tmp/f.txt") "hello" Sample.disk) with
       | Ok _ => None
       | Fail e => Some e
       end,
     {| fs := snd (fsm_writeFile (Sample.abs "/" "/tmp/f.txt") "hello" Sample.disk);
        trace := trace w_open ++
                 [Fs (CStat {| Sample.elements := ["tmp"]; Sample.original := "/tmp" |});
                  Fs (CWriteFile (Sample.abs "/" "/tmp/f.txt") "hello")];
        vars := vars w_open |}).
Proof.
  assert (Hstat : fsm_stat {| Sample.elements := ["tmp"]; Sample.original := "/tmp" |} (fs w_open) =
                  (Ok Sample.dir_stat, Sample.disk)) by (vm_compute; reflexivity).
  exact (import_file_into_existing_directory 0 (Sample.abs "/" "/tmp/f.txt")
           {| Sample.elements := ["tmp"]; Sample.original := "/tmp" |} "hello" w_open
           Sample.dir_stat Sample.disk eq_refl Hstat).
Defined.

Lemma import_file_when_stat_fails_witness :
  ImportCommand.onFileLoad (FS:=unit) (H0:=Broken.manager) 0
      (Sample.abs "/" "/tmp/f.txt") "hello"
      {| fs := tt; trace := []; vars := ImportCommand.vars0 |} =
    (Fulfilled (Some Broken.out_of_order),
     {| fs := tt;
        trace := [] ++ [Fs (CStat {| Sample.elements := ["tmp"]; Sample.original := "/tmp" |})];
        vars := ImportCommand.vars0 |}).
Proof.
  exact (import_file_when_stat_fails (H0:=Broken.manager) 0 (Sample.abs "/" "/tmp/f.txt")
           {| Sample.elements := ["tmp"]; Sample.original := "/tmp" |} "hello"
           {| fs := tt; trace := []; vars := ImportCommand.vars0 |}
           Broken.out_of_order tt eq_refl eq_refl eq_refl).
Defined.

Lemma import_file_into_missing_directory_witness :
  ImportCommand.onFileLoad 3 (Sample.abs "/" "/tmp/d/e/f.txt") "hello" w_open =
    (Fulfilled None,
     {| fs := snd (fsm_writeFile (Sample.abs "/" "/tmp/d/e/f.txt") "hello"
                     (<[["tmp"; "d"; "e"] := Sample.DirNode]>
                        (<[["tmp"; "d"] := Sample.DirNode]> Sample.disk)));
        trace := [Fs (CStat (Sample.abs "/" "/tmp/d/e"));
                  Fs (CMkdir (Sample.abs "/" "/tmp"));
                  Fs (CMkdir (Sample.abs "/" "/tmp/d"));
                  Fs (CMkdir (Sample.abs "/" "/tmp/d/e"));
                  Fs (CWriteFile (Sample.abs "/" "/tmp/d/e/f.txt") "hello")];
        vars := ImportCommand.vars0 |}) ∧
  ImportCommand.onFileLoad 4 (Sample.abs "/" "/home/notes/x/y/f.txt") "hello" w_open =
    (Fulfilled (Some (AxiomError NotFound "path")),
     {| fs := Sample.disk;
        trace := [Fs (CStat (Sample.abs "/" "/home/notes/x/y"));
                  Fs (CMkdir (Sample.abs "/" "/home"));
                  Fs (CMkdir (Sample.abs "/" "/home/notes"));
                  Fs (CMkdir (Sample.abs "/" "/home/notes/x"))];
        vars := ImportCommand.vars0 |}).
Proof.
  assert (Hde : ancestry 3 (Sample.abs "/" "/tmp/d/e") = Some tmp_d_e)
    by (vm_compute; reflexivity).
  assert (Hxy : ancestry 4 (Sample.abs "/" "/home/notes/x/y") = Some home_notes_x_y)
    by (vm_compute; reflexivity).
  assert (Hstat : ∀ p,
            p = Sample.abs "/" "/tmp/d/e" ∨ p = Sample.abs "/" "/home/notes/x/y" →
            fsm_stat p (fs w_open) =
              (Fail (A:=StatResult) (AxiomError NotFound "path"), Sample.disk))
    by (intros p [->| ->]; reflexivity).
  assert (Hpde : getParentPath (Sample.abs "/" "/tmp/d/e/f.txt") =
                 Some (Sample.abs "/" "/tmp/d/e")) by (vm_compute; reflexivity).
  assert (Hpxy : getParentPath (Sample.abs "/" "/home/notes/x/y/f.txt") =
                 Some (Sample.abs "/" "/home/notes/x/y")) by (vm_compute; reflexivity).
  rewrite (import_file_into_missing_directory 3 (Sample.abs "/" "/tmp/d/e/f.txt")
             (Sample.abs "/" "/tmp/d/e") "hello" w_open
             (AxiomError NotFound "path") Sample.disk tmp_d_e
             Hpde (Hstat _ (or_introl eq_refl)) eq_refl Hde).
  rewrite (import_file_into_missing_directory 4
             (Sample.abs "/" "/home/notes/x/y/f.txt")
             (Sample.abs "/" "/home/notes/x/y") "hello" w_open
             (AxiomError NotFound "path") Sample.disk home_notes_x_y
             Hpxy (Hstat _ (or_intror eq_refl)) eq_refl Hxy).
  split;
    (apply settled_world_eq;
     [vm_compute; reflexivity|reflexivity|vm_compute; reflexivity|reflexivity]).
Defined.

Lemma import_of_one_file_closes_after_it_witness :
  run (ImportCommand.session 3 (Sample.cx_of ["/tmp"] "/")
         [ImportCommand.Change [picked]]) Sample.disk ImportCommand.vars0 =
    opening ++
    [Fs (CStat (Sample.abs "/" "/tmp/d"));
     Fs (CMkdir (Sample.abs "/" "/tmp"));
     Fs (CMkdir (Sample.abs "/" "/tmp/d"));
     Fs (CWriteFile (Sample.abs "/" "/tmp/d/f.txt") "hello");
     Dom (RemoveChild FileInput); Dom (RemoveChild DummyFocusInput);
     Dom (Focus OriginalFocus); CloseOk] ∧
  run (ImportCommand.session 3 (Sample.cx_of ["/home/notes"] "/")
         [ImportCommand.Change [picked]]) Sample.disk ImportCommand.vars0 =
    opening ++
    [Fs (CStat (Sample.abs "/" "/home/notes/d"));
     Fs (CMkdir (Sample.abs "/" "/home"));
     Fs (CMkdir (Sample.abs "/" "/home/notes"));
     Fs (CMkdir (Sample.abs "/" "/home/notes/d"));
     Dom (RemoveChild FileInput); Dom (RemoveChild DummyFocusInput);
     Dom (Focus OriginalFocus);
     CloseError (AxiomErrorOf Unknown [AxiomError NotFound "path"])].
Proof.
  rewrite (proj1 (import_of_one_file_closes_after_it (Sample.cx_of ["/tmp"] "/") 3
                    Sample.disk picked (le_n 1) eq_refl)).
  rewrite (proj1 (import_of_one_file_closes_after_it
                    (Sample.cx_of ["/home/notes"] "/") 3
                    Sample.disk picked (le_n 1) eq_refl)).
  split; vm_compute; reflexivity.
Defined.


Lemma import_usage_opens_nothing_witness :
  run (ImportCommand.session 0 (Sample.cx_of ["/tmp"; "/home"] "/")
         [ImportCommand.FocusDummy; ImportCommand.TimerFires])
    Sample.disk ImportCommand.vars0 = [Ready; Write ImportCommand.usage; CloseOk].
Proof.
  apply (import_usage_opens_nothing (Sample.cx_of ["/tmp"; "/home"] "/") 0 Sample.disk
           [ImportCommand.FocusDummy; ImportCommand.TimerFires]).
  left. simpl. lia.
Defined.

Lemma import_of_no_file_closes_ok_witness :
  run (ImportCommand.session 0 (Sample.cx_of [] "/") [ImportCommand.Change []])
    Sample.disk ImportCommand.vars0 =
    opening ++
    [Dom (RemoveChild FileInput); Dom (RemoveChild DummyFocusInput);
     Dom (Focus OriginalFocus); CloseOk].
Proof.
  apply (import_of_no_file_closes_ok (Sample.cx_of [] "/") 0 Sample.disk);
    [simpl; lia | reflexivity].
Defined.

Lemma no_dispatch_before_the_shell_witness :
  Bootstrap.dispatched
    (Bootstrap.run [Bootstrap.Launched true; Bootstrap.WhenReady true;
                    Bootstrap.Launched false]) = 0.
Proof.
  apply (no_dispatch_before_the_shell
           [Bootstrap.Launched true; Bootstrap.WhenReady true;
            Bootstrap.Launched false]).
  intros Hin. repeat (apply elem_of_cons in Hin as [Hin|Hin]; [discriminate|]).
  by apply elem_of_nil in Hin.
Defined.

